(** * FLUX Anime Dream Weaver: the request pipeline of [main.py]

    A shallow embedding of the Python code that stands between an HTTP request
    and the diffusion pipeline: the configuration constants, the prompt
    validator and enhancer, seed resolution, the remote generation function,
    the [/generate] and [/default-preview] handlers.

    Conventions.
    - A Python [str] is a list of Unicode code points ([pystr]); [len] is
      [length].  A Python [int] is a [Z].  [bytes] is a list of [Byte.byte].
    - A Python [dict] with literal keys is an association list in insertion
      order; [d["k"]] is [getitem], which raises [KeyError] on a missing key.
    - Code that can raise, and that talks to the outside (the random number
      generator, the model, the Modal transport, the file system), runs in the
      monad [M]: it threads the trace of external calls made so far and
      returns either a value or the exception raised.  What the outside
      answers is fixed by a [World].
    - [print] calls write to the container log only and are left out.
    - [except Exception] catches every exception the model can raise; the
      [BaseException]s outside [Exception] (interpreter exit, keyboard
      interrupt) are not modelled. *)

From Stdlib Require Import String Ascii DecimalString.
From Stdlib Require Import ZArith NArith List Bool Lia.
Import ListNotations.

Local Open Scope string_scope.
Local Open Scope list_scope.
Local Open Scope Z_scope.

(** ** Python strings *)

Definition pystr := list N.

(** A literal of the source, all of whose characters are below U+0100. *)
Definition lit (s : string) : pystr :=
  map N_of_ascii (list_ascii_of_string s).

(** [str(n)] for an [int]. *)
Definition str_of_int (n : Z) : pystr :=
  lit (NilZero.string_of_int (Z.to_int n)).

(** The characters [str.strip()] removes when called without an argument:
    those for which [str.isspace] holds (CPython's [_PyUnicode_IsWhitespace]). *)
Definition isspace (c : N) : bool :=
  (((9 <=? c) && (c <=? 13)) || ((28 <=? c) && (c <=? 32))
   || (c =? 133) || (c =? 160) || (c =? 5760)
   || ((8192 <=? c) && (c <=? 8202))
   || (c =? 8232) || (c =? 8233) || (c =? 8239) || (c =? 8287)
   || (c =? 12288))%N.

Fixpoint lstrip (s : pystr) : pystr :=
  match s with
  | [] => []
  | c :: s' => if isspace c then lstrip s' else s
  end.

Definition rstrip (s : pystr) : pystr := rev (lstrip (rev s)).

(** [s.strip()]: leading and trailing whitespace removed. *)
Definition strip (s : pystr) : pystr := rstrip (lstrip s).

(** [s[:n]]. *)
Definition slice_to (n : nat) (s : pystr) : pystr := firstn n s.

(** [s.endswith(suffix)]. *)
Fixpoint str_eqb (s t : pystr) : bool :=
  match s, t with
  | [], [] => true
  | c :: s', d :: t' => (c =? d)%N && str_eqb s' t'
  | _, _ => false
  end.

Definition endswith (s suffix : pystr) : bool :=
  (length suffix <=? length s)%nat
  && str_eqb (skipn (length s - length suffix) s) suffix.

(** ** Configuration constants (class [Config]) *)

Module Config.
Definition MODEL_NAME : pystr := lit "black-forest-labs/FLUX.1-schnell".
Definition DEFAULT_STEPS : Z := 4.
Definition MAX_STEPS : Z := 8.
Definition DEFAULT_SEED : Z := -1.
Definition ANIME_STYLE_SUFFIX : pystr :=
    lit ", **anime style, vibrant colors, fantastical, cinematic lighting, highly detailed, studio quality, trending on ArtStation.**".
Definition DEFAULT_PROMPT : pystr :=
    lit "A serene girl standing under a cherry blossom tree".
Definition DEFAULT_IMAGE_FILE : pystr := lit "/assets/cherry_blossom_girl.png".
End Config.

(** ** Prompt processing (class [PromptProcessor]) *)

(** [enhance_prompt(user_prompt, style_suffix)]; the call sites pass the
    default [Config.ANIME_STYLE_SUFFIX]. *)
Definition enhance_prompt (user_prompt style_suffix : pystr) : pystr :=
  strip user_prompt ++ style_suffix.

(** [not prompt]: a string is falsy exactly when it is empty. *)
Definition str_falsy (s : pystr) : bool :=
  match s with [] => true | _ => false end.

Definition validate_prompt (prompt : pystr) : bool :=
  if str_falsy prompt || (length (strip prompt) =? 0)%nat then false
  else if (1000 <? length prompt)%nat then false
  else true.

(** ** Exceptions *)

(** The exceptions the code raises itself, and [ExternalError] for any
    [Exception] raised by a library or a service, kept by its text. *)
Inductive exn : Type :=
| ValueError (msg : pystr)
| HTTPException (status_code : Z) (detail : pystr)
| KeyError (key : string)
| ExternalError (text : pystr).

(** [str(e)].  Starlette's [HTTPException.__str__] gives
    [f"{status_code}: {detail}"]; [str] of a [KeyError] is the [repr] of the
    key. *)
Definition str_of_exn (e : exn) : pystr :=
  match e with
  | ValueError msg => msg
  | HTTPException status_code detail =>
      str_of_int status_code ++ lit ": " ++ detail
  | KeyError key => lit "'" ++ lit key ++ lit "'"
  | ExternalError text => text
  end.

(** ** JSON values and dictionaries *)

Inductive json : Type :=
| JNull
| JBool (b : bool)
| JInt (n : Z)
| JStr (s : pystr).

Definition dict := list (string * json).

Fixpoint lookup (k : string) (d : dict) : option json :=
  match d with
  | [] => None
  | (k', v) :: d' => if String.eqb k k' then Some v else lookup k d'
  end.

Definition keys (d : dict) : list string := map fst d.

(** Truth value of a Python object, as [if result["success"]:] tests it. *)
Definition truthy (v : json) : bool :=
  match v with
  | JNull => false
  | JBool b => b
  | JInt n => negb (n =? 0)
  | JStr s => negb (str_falsy s)
  end.

(** ** Base64 ([base64.b64encode(...).decode()]) *)

Definition b64_alphabet : pystr :=
  lit "ABCDEFGHIJKLMNOPQRSTUVWXYZabcdefghijklmnopqrstuvwxyz0123456789+/".

(** The padding character [=]. *)
Definition b64_pad : N := 61%N.

Definition b64_char (i : N) : N := nth (N.to_nat i) b64_alphabet b64_pad.

Definition sextet (n : N) (shift : N) : N := N.land (N.shiftr n shift) 63.

Fixpoint b64encode (data : list Byte.byte) : pystr :=
  match data with
  | [] => []
  | [a] =>
      let n := N.shiftl (Byte.to_N a) 16 in
      [b64_char (sextet n 18); b64_char (sextet n 12); b64_pad; b64_pad]
  | [a; b] =>
      let n := N.lor (N.shiftl (Byte.to_N a) 16) (N.shiftl (Byte.to_N b) 8) in
      [b64_char (sextet n 18); b64_char (sextet n 12);
       b64_char (sextet n 6); b64_pad]
  | a :: b :: c :: rest =>
      let n := N.lor (N.lor (N.shiftl (Byte.to_N a) 16)
                            (N.shiftl (Byte.to_N b) 8)) (Byte.to_N c) in
      b64_char (sextet n 18) :: b64_char (sextet n 12)
      :: b64_char (sextet n 6) :: b64_char (sextet n 0) :: b64encode rest
  end.

(** A base64 string: a multiple of four characters, each of the alphabet or
    the padding character. *)
Definition is_b64_char (c : N) : bool :=
  existsb (N.eqb c) b64_alphabet || (c =? b64_pad)%N.

Definition is_base64 (s : pystr) : bool :=
  (length s mod 4 =? 0)%nat && forallb is_b64_char s.

(** ** The outside world and the effect monad *)

(** The external calls a request makes, in the order it makes them. *)
Inductive event : Type :=
| EvRemote (prompt : pystr) (seed steps : Z)
| EvLoadModel
| EvRandint (lo hi : Z)
| EvPipe (prompt : pystr) (seed steps : Z)
| EvExists (filename : pystr)
| EvRead (filename : pystr).

(** What the outside answers.
    - [remote_transport]: [Some e] when the Modal call [generate_image.remote]
      itself raises [e] in the caller (the function's result never arrives).
    - [load_model]: [Some e] when importing torch or
      [FluxPipeline.from_pretrained(...).to("cuda")] raises; [None] when the
      model loads or is loaded already.
    - [randint lo hi]: the value [random.randint(lo, hi)] returns.
    - [run_pipe prompt seed steps]: seeding the torch generator, running the
      pipeline and saving its first image as PNG: the bytes of the PNG, or
      the exception raised on the way.
    - [path_exists], [read_file]: [os.path.exists] and [open(f, "rb").read()]. *)
Record World : Type := {
  remote_transport : pystr -> Z -> Z -> option exn;
  load_model : option exn;
  randint : Z -> Z -> Z;
  run_pipe : pystr -> Z -> Z -> exn + list Byte.byte;
  path_exists : pystr -> bool;
  read_file : pystr -> exn + list Byte.byte
}.

(** A computation: from the trace so far to a value or an exception, and the
    trace extended by the calls made. *)
Definition M (A : Type) : Type := list event -> (exn + A) * list event.

Definition ret {A} (a : A) : M A := fun tr => (inr a, tr).

Definition raise {A} (e : exn) : M A := fun tr => (inl e, tr).

Definition bind {A B} (c : M A) (k : A -> M B) : M B :=
  fun tr =>
    match c tr with
    | (inr a, tr') => k a tr'
    | (inl e, tr') => (inl e, tr')
    end.

(** [try: c  except Exception as e: h e]. *)
Definition try_except {A} (c : M A) (h : exn -> M A) : M A :=
  fun tr =>
    match c tr with
    | (inr a, tr') => (inr a, tr')
    | (inl e, tr') => h e tr'
    end.

Definition emit (ev : event) : M unit := fun tr => (inr tt, tr ++ [ev]).

Definition of_sum {A} (r : exn + A) : M A :=
  match r with inl e => raise e | inr a => ret a end.

Definition of_failure (r : option exn) : M unit :=
  match r with Some e => raise e | None => ret tt end.

Declare Scope py_scope.
Delimit Scope py_scope with py.
Notation "x <- c ;; k" := (bind c (fun x => k))
  (at level 100, c at next level, right associativity) : py_scope.
Notation "c ;;; k" := (bind c (fun _ => k))
  (at level 100, right associativity) : py_scope.
Local Open Scope py_scope.

(** Running a request handler: an empty trace to start with. *)
Definition run {A} (c : M A) : (exn + A) * list event := c [].

(** [d[k]]. *)
Definition getitem (d : dict) (k : string) : M json :=
  match lookup k d with
  | Some v => ret v
  | None => raise (KeyError k)
  end.

(** ** [ImageGenerator.generate] *)

Definition generate (w : World) (prompt : pystr) (seed steps : Z)
  : M (pystr * Z) :=
  emit EvLoadModel ;;;
  of_failure (load_model w) ;;;
  seed <- (if seed =? Config.DEFAULT_SEED
           then emit (EvRandint 0 (2 ^ 32 - 1)) ;;;
                ret (randint w 0 (2 ^ 32 - 1))
           else ret seed) ;;
  emit (EvPipe prompt seed steps) ;;;
  png <- of_sum (run_pipe w prompt seed steps) ;;
  let img_str := b64encode png in
  ret (img_str, seed).

(** ** [generate_image] *)

(** [prompt[:100] + "..." if len(prompt) > 100 else prompt]. *)
Definition truncated (prompt : pystr) : pystr :=
  if (100 <? length prompt)%nat then slice_to 100 prompt ++ lit "..."
  else prompt.

(** [not (1 <= steps <= Config.MAX_STEPS)]. *)
Definition steps_out_of_range (steps : Z) : bool :=
  negb ((1 <=? steps) && (steps <=? Config.MAX_STEPS)).

(** The dictionary the [except] clause of [generate_image] returns; [steps]
    is the value the local variable holds when the exception is raised. *)
Definition generate_image_failure (e : exn) (seed steps : Z) : dict :=
  [("success", JBool false);
   ("error", JStr (str_of_exn e));
   ("seed", JInt seed);
   ("steps", JInt steps)].

Definition generate_image (w : World) (prompt : pystr) (seed steps : Z)
  : M dict :=
  if negb (validate_prompt prompt) then
    (* raised before [steps] is reassigned *)
    try_except
      (raise (ValueError (lit "Invalid prompt provided")))
      (fun e => ret (generate_image_failure e seed steps))
  else
    let steps := if steps_out_of_range steps
                 then Config.DEFAULT_STEPS else steps in
    try_except
      (r <- generate w prompt seed steps ;;
       let '(img_str, used_seed) := r in
       ret [("success", JBool true);
            ("image", JStr img_str);
            ("seed", JInt used_seed);
            ("steps", JInt steps);
            ("prompt", JStr (truncated prompt))])
      (fun e => ret (generate_image_failure e seed steps)).

(** [generate_image.remote(prompt, seed, steps)]: the function runs in its
    own container and its result comes back, unless the transport raises. *)
Definition remote (w : World) (f : pystr -> Z -> Z -> M dict)
  (prompt : pystr) (seed steps : Z) : M dict :=
  emit (EvRemote prompt seed steps) ;;;
  of_failure (remote_transport w prompt seed steps) ;;;
  f prompt seed steps.

(** ** The web application *)

Record response : Type := JSONResponse {
  content : dict;
  status_code : Z
}.

(** [GET /health]. *)
Definition health_check : response :=
  JSONResponse [("status", JStr (lit "healthy"));
                ("model", JStr Config.MODEL_NAME)] 200.

(** [POST /generate].  The form fields arrive parsed: [prompt] a [str],
    [steps] and [seed] an [int] each (their defaults, when a field is left
    out, are [Config.DEFAULT_STEPS] and [Config.DEFAULT_SEED]). *)
Definition generate_endpoint (w : World) (prompt : pystr) (steps seed : Z)
  : M response :=
  try_except
    (if negb (validate_prompt prompt) then
       raise (HTTPException 400 (lit "Invalid prompt"))
     else
       let steps := if steps_out_of_range steps
                    then Config.DEFAULT_STEPS else steps in
       let enhanced_prompt :=
         enhance_prompt prompt Config.ANIME_STYLE_SUFFIX in
       result <- remote w (generate_image w) enhanced_prompt seed steps ;;
       success <- getitem result "success" ;;
       if truthy success then
         image <- getitem result "image" ;;
         seed' <- getitem result "seed" ;;
         steps' <- getitem result "steps" ;;
         ret (JSONResponse
                [("success", JBool true);
                 ("image", image);
                 ("seed", seed');
                 ("steps", steps');
                 ("original_prompt", JStr prompt);
                 ("enhanced_prompt", JStr (truncated enhanced_prompt))]
                200)
       else
         error <- getitem result "error" ;;
         ret (JSONResponse [("success", JBool false);
                            ("error", error)] 500))
    (fun e =>
       ret (JSONResponse
              [("success", JBool false);
               ("error", JStr (lit "Server error: " ++ str_of_exn e))]
              500)).

(** ** The default preview *)

Definition load_default_image (w : World) (filename : pystr)
  : M (option pystr) :=
  try_except
    (emit (EvExists filename) ;;;
     if path_exists w filename then
       emit (EvRead filename) ;;;
       img_data <- of_sum (read_file w filename) ;;
       ret (Some (b64encode img_data))
     else
       ret None)
    (fun e => ret None).

(** A Python [Optional[str]] as JSON: [None] is [null]. *)
Definition json_of_optional_str (o : option pystr) : json :=
  match o with Some s => JStr s | None => JNull end.

(** [GET /default-preview]; the returned dictionary is sent with status 200. *)
Definition get_default_preview (w : World) : M response :=
  default_image <- load_default_image w Config.DEFAULT_IMAGE_FILE ;;
  ret (JSONResponse
         [("prompt", JStr Config.DEFAULT_PROMPT);
          ("image", json_of_optional_str default_image)] 200).

(** ** [ImageGenerator]: the lazily loaded model handle

    [generate] above sees loading through the oracle [load_model] of the
    world.  Here is the method itself, on the state of the generator object:
    [self.pipe], [None] until a load has succeeded.  [Pipe] is the type of
    pipeline handles; [from_pretrained] is what
    [FluxPipeline.from_pretrained(...).to("cuda")] answers if it is called
    now. *)

Record ImageGenerator (Pipe : Type) : Type := { pipe : option Pipe }.
Arguments pipe {Pipe} _.

(** [__init__]. *)
Definition ImageGenerator_init {Pipe : Type} : ImageGenerator Pipe :=
  {| pipe := None |}.

(** [self.load_model()]: the outcome, the generator afterwards, and whether
    [from_pretrained] was called. *)
Definition ImageGenerator_load_model {Pipe : Type}
  (from_pretrained : exn + Pipe) (self : ImageGenerator Pipe)
  : (exn + unit) * ImageGenerator Pipe * bool :=
  match pipe self with
  | None =>
      match from_pretrained with
      | inr p => (inr tt, {| pipe := Some p |}, true)
      | inl e => (inl e, self, true)
      end
  | Some _ => (inr tt, self, false)
  end.

(** One call of [load_model] per request, on the one global generator;
    [answers] holds, request by request, what [from_pretrained] would answer.
    Returns the generator at the end and the number of times
    [from_pretrained] was called. *)
Fixpoint load_model_calls {Pipe : Type}
  (answers : list (exn + Pipe)) (self : ImageGenerator Pipe)
  : ImageGenerator Pipe * nat :=
  match answers with
  | [] => (self, 0%nat)
  | a :: rest =>
      let '(_, self', called) := ImageGenerator_load_model a self in
      let '(final, n) := load_model_calls rest self' in
      (final, ((if called then 1 else 0) + n)%nat)
  end.

(** * Vocabulary of the statements

    Names for what the handlers compute on the way, the calls a trace
    records, and the ways a run can end. *)

(** The value of [steps] after
    [if not (1 <= steps <= Config.MAX_STEPS): steps = Config.DEFAULT_STEPS]. *)
Definition clamped (steps : Z) : Z :=
  if steps_out_of_range steps then Config.DEFAULT_STEPS else steps.

(** The seed [generate] works with, and the call it makes to get it. *)
Definition resolved (w : World) (seed : Z) : Z :=
  if seed =? Config.DEFAULT_SEED then randint w 0 (2 ^ 32 - 1) else seed.

Definition seed_events (seed : Z) : list event :=
  if seed =? Config.DEFAULT_SEED then [EvRandint 0 (2 ^ 32 - 1)] else [].

Definition generate_image_success
  (img_str : pystr) (used_seed steps : Z) (prompt : pystr) : dict :=
  [("success", JBool true);
   ("image", JStr img_str);
   ("seed", JInt used_seed);
   ("steps", JInt steps);
   ("prompt", JStr (truncated prompt))].

(** The two bodies a failed request can carry. *)
Definition error_response (error : pystr) : response :=
  JSONResponse [("success", JBool false); ("error", JStr error)] 500.

Definition success_response
  (image : pystr) (seed steps : Z) (prompt enhanced_prompt : pystr)
  : response :=
  JSONResponse
    [("success", JBool true);
     ("image", JStr image);
     ("seed", JInt seed);
     ("steps", JInt steps);
     ("original_prompt", JStr prompt);
     ("enhanced_prompt", JStr (truncated enhanced_prompt))] 200.

(** [e] is raised inside the [try] block of [generate_image]: by the
    validation of the prompt, or by the inference call [generator.generate]
    (which runs with the clamped steps). *)
Definition raised_in_generate_image
  (w : World) (prompt : pystr) (seed steps : Z) (e : exn) : Prop :=
  (validate_prompt prompt = false
   /\ e = ValueError (lit "Invalid prompt provided"))
  \/ (validate_prompt prompt = true
      /\ fst (run (generate w prompt seed (clamped steps))) = inl e).

(** ** Calls recorded in a trace *)

(** The arguments of the pipeline runs, of the remote calls and of the
    [randint] draws of a trace, in order. *)
Definition pipe_calls (tr : list event) : list (pystr * Z * Z) :=
  flat_map (fun ev => match ev with
                      | EvPipe p s st => [(p, s, st)]
                      | _ => []
                      end) tr.

Definition remote_calls (tr : list event) : list (pystr * Z * Z) :=
  flat_map (fun ev => match ev with
                      | EvRemote p s st => [(p, s, st)]
                      | _ => []
                      end) tr.

Definition randint_calls (tr : list event) : list (Z * Z) :=
  flat_map (fun ev => match ev with
                      | EvRandint lo hi => [(lo, hi)]
                      | _ => []
                      end) tr.

(** ** Outcomes

    The ways a run of [generate_image] and of [generate_endpoint] can end:
    the value returned and the trace of the calls made. *)

Inductive image_outcome (w : World) (prompt : pystr) (seed steps : Z)
  : dict -> list event -> Prop :=
| ImageRejected :
    validate_prompt prompt = false ->
    image_outcome w prompt seed steps
      (generate_image_failure (ValueError (lit "Invalid prompt provided"))
         seed steps) []
| ImageLoadFailed e :
    validate_prompt prompt = true ->
    load_model w = Some e ->
    image_outcome w prompt seed steps
      (generate_image_failure e seed (clamped steps)) [EvLoadModel]
| ImagePipeFailed e :
    validate_prompt prompt = true ->
    load_model w = None ->
    run_pipe w prompt (resolved w seed) (clamped steps) = inl e ->
    image_outcome w prompt seed steps
      (generate_image_failure e seed (clamped steps))
      (EvLoadModel :: seed_events seed
         ++ [EvPipe prompt (resolved w seed) (clamped steps)])
| ImageGenerated png :
    validate_prompt prompt = true ->
    load_model w = None ->
    run_pipe w prompt (resolved w seed) (clamped steps) = inr png ->
    image_outcome w prompt seed steps
      (generate_image_success (b64encode png) (resolved w seed)
         (clamped steps) prompt)
      (EvLoadModel :: seed_events seed
         ++ [EvPipe prompt (resolved w seed) (clamped steps)]).

Inductive endpoint_outcome (w : World) (prompt : pystr) (steps seed : Z)
  : response -> list event -> Prop :=
| Rejected :
    validate_prompt prompt = false ->
    endpoint_outcome w prompt steps seed
      (error_response (lit "Server error: 400: Invalid prompt")) []
| TransportFailed e :
    let enhanced_prompt := enhance_prompt prompt Config.ANIME_STYLE_SUFFIX in
    validate_prompt prompt = true ->
    remote_transport w enhanced_prompt seed (clamped steps) = Some e ->
    endpoint_outcome w prompt steps seed
      (error_response (lit "Server error: " ++ str_of_exn e))
      [EvRemote enhanced_prompt seed (clamped steps)]
| EnhancedRejected :
    let enhanced_prompt := enhance_prompt prompt Config.ANIME_STYLE_SUFFIX in
    validate_prompt prompt = true ->
    remote_transport w enhanced_prompt seed (clamped steps) = None ->
    validate_prompt enhanced_prompt = false ->
    endpoint_outcome w prompt steps seed
      (error_response (lit "Invalid prompt provided"))
      [EvRemote enhanced_prompt seed (clamped steps)]
| LoadFailed e :
    let enhanced_prompt := enhance_prompt prompt Config.ANIME_STYLE_SUFFIX in
    validate_prompt prompt = true ->
    remote_transport w enhanced_prompt seed (clamped steps) = None ->
    validate_prompt enhanced_prompt = true ->
    load_model w = Some e ->
    endpoint_outcome w prompt steps seed
      (error_response (str_of_exn e))
      [EvRemote enhanced_prompt seed (clamped steps); EvLoadModel]
| PipeFailed e :
    let enhanced_prompt := enhance_prompt prompt Config.ANIME_STYLE_SUFFIX in
    validate_prompt prompt = true ->
    remote_transport w enhanced_prompt seed (clamped steps) = None ->
    validate_prompt enhanced_prompt = true ->
    load_model w = None ->
    run_pipe w enhanced_prompt (resolved w seed) (clamped steps) = inl e ->
    endpoint_outcome w prompt steps seed
      (error_response (str_of_exn e))
      (EvRemote enhanced_prompt seed (clamped steps) :: EvLoadModel
         :: seed_events seed
         ++ [EvPipe enhanced_prompt (resolved w seed) (clamped steps)])
| Generated png :
    let enhanced_prompt := enhance_prompt prompt Config.ANIME_STYLE_SUFFIX in
    validate_prompt prompt = true ->
    remote_transport w enhanced_prompt seed (clamped steps) = None ->
    validate_prompt enhanced_prompt = true ->
    load_model w = None ->
    run_pipe w enhanced_prompt (resolved w seed) (clamped steps) = inr png ->
    endpoint_outcome w prompt steps seed
      (success_response (b64encode png) (resolved w seed) (clamped steps)
         prompt enhanced_prompt)
      (EvRemote enhanced_prompt seed (clamped steps) :: EvLoadModel
         :: seed_events seed
         ++ [EvPipe enhanced_prompt (resolved w seed) (clamped steps)]).

(** ** Sample worlds *)

(** Everything works: the model is loaded, the pipeline returns two bytes
    of image, [randint] draws the top of its range, no preview file. *)
Definition world_ok : World := {|
  remote_transport := fun _ _ _ => None;
  load_model := None;
  randint := fun lo hi => hi;
  run_pipe := fun _ _ _ => inr [Byte.x4d; Byte.x61];
  path_exists := fun _ => false;
  read_file := fun _ => inl (ExternalError (lit "No such file or directory"))
|}.

(** The pipeline runs out of memory; the preview file exists and cannot be
    read. *)
Definition world_failing : World := {|
  remote_transport := fun _ _ _ => None;
  load_model := None;
  randint := fun lo hi => lo;
  run_pipe := fun _ _ _ => inl (ExternalError (lit "CUDA out of memory"));
  path_exists := fun _ => true;
  read_file := fun _ => inl (ExternalError (lit "Permission denied"))
|}.

(** * Properties *)

(** ** Constants and encodings, checked on examples *)

Example suffix_length : length Config.ANIME_STYLE_SUFFIX = 124%nat.
Proof. reflexivity. Qed.

Example b64encode_Man :
  b64encode [Byte.x4d; Byte.x61; Byte.x6e] = lit "TWFu"
  /\ b64encode [Byte.x4d; Byte.x61] = lit "TWE="
  /\ b64encode [Byte.x4d] = lit "TQ==".
Proof. repeat split; reflexivity. Qed.

(** ** Stripping *)

Lemma lstrip_all_space (s : pystr) :
  forallb isspace s = true -> lstrip s = [].
Proof.
  induction s as [|c s IH]; simpl; [reflexivity|].
  intros H; apply andb_true_iff in H as [Hc Hs]; rewrite Hc; auto.
Qed.

(** What [lstrip] leaves is empty or starts with a character that is not
    whitespace. *)
Lemma lstrip_head (s : pystr) :
  lstrip s = [] \/ exists c t, lstrip s = c :: t /\ isspace c = false.
Proof.
  induction s as [|c s IH]; simpl; [now left|].
  destruct (isspace c) eqn:Hc; [exact IH|].
  right; exists c, s; auto.
Qed.

Lemma lstrip_nil_all_space (s : pystr) :
  lstrip s = [] -> forallb isspace s = true.
Proof.
  induction s as [|c s IH]; simpl; [reflexivity|].
  destruct (isspace c) eqn:Hc; [auto|discriminate].
Qed.

Lemma forallb_rev {A} (f : A -> bool) (l : list A) :
  forallb f (rev l) = forallb f l.
Proof.
  induction l as [|a l IH]; simpl; [reflexivity|].
  rewrite forallb_app, IH; simpl. rewrite andb_true_r. apply andb_comm.
Qed.

Lemma rstrip_nil_iff (s : pystr) :
  rstrip s = [] <-> forallb isspace s = true.
Proof.
  unfold rstrip; split; intros H.
  - rewrite <- forallb_rev. apply lstrip_nil_all_space.
    rewrite <- (rev_involutive (lstrip (rev s))), H; reflexivity.
  - rewrite lstrip_all_space; [reflexivity|]. now rewrite forallb_rev.
Qed.

(** The stripped string is empty exactly when every character is
    whitespace (the empty string included). *)
Lemma strip_nil_iff (s : pystr) :
  strip s = [] <-> forallb isspace s = true.
Proof.
  unfold strip; rewrite rstrip_nil_iff; split; intros H.
  - destruct (lstrip_head s) as [E | (c & t & E & Hc)].
    + now apply lstrip_nil_all_space.
    + rewrite E in H; simpl in H; rewrite Hc in H; discriminate.
  - rewrite lstrip_all_space; auto.
Qed.

Lemma lstrip_length (s : pystr) : (length (lstrip s) <= length s)%nat.
Proof.
  induction s as [|c s IH]; simpl; [lia|].
  destruct (isspace c); simpl; lia.
Qed.

Lemma strip_length (s : pystr) : (length (strip s) <= length s)%nat.
Proof.
  unfold strip, rstrip. rewrite length_rev.
  etransitivity; [apply lstrip_length|]. rewrite length_rev.
  apply lstrip_length.
Qed.

Lemma length_zero_nil {A} (l : list A) : (length l =? 0)%nat = true <-> l = [].
Proof.
  destruct l; simpl; split; intros; try reflexivity; discriminate.
Qed.

(** ** The validator *)

Lemma validate_prompt_false_iff (prompt : pystr) :
  validate_prompt prompt = false <->
  forallb isspace prompt = true \/ (1000 < length prompt)%nat.
Proof.
  unfold validate_prompt.
  destruct (str_falsy prompt || (length (strip prompt) =? 0)%nat) eqn:E.
  - split; [intros _; left|reflexivity].
    apply orb_true_iff in E as [E | E].
    + destruct prompt; [reflexivity|discriminate].
    + now apply strip_nil_iff, length_zero_nil.
  - apply orb_false_iff in E as [_ E].
    destruct (1000 <? length prompt)%nat eqn:L.
    + split; [intros _; right; now apply Nat.ltb_lt|reflexivity].
    + split; [discriminate|]. intros [H | H].
      * apply strip_nil_iff, length_zero_nil in H; congruence.
      * apply Nat.ltb_lt in H; congruence.
Qed.

Lemma validate_prompt_true_length (prompt : pystr) :
  validate_prompt prompt = true -> (length prompt <= 1000)%nat.
Proof.
  intros H. destruct (Nat.le_gt_cases (length prompt) 1000) as [L | L]; auto.
  assert (validate_prompt prompt = false)
    by (apply validate_prompt_false_iff; now right).
  congruence.
Qed.

Lemma validate_prompt_too_long (prompt : pystr) :
  (1000 < length prompt)%nat -> validate_prompt prompt = false.
Proof. intros H; apply validate_prompt_false_iff; now right. Qed.

(** ** Base64 output *)

Lemma b64_char_ok (i : N) : is_b64_char (b64_char i) = true.
Proof.
  unfold is_b64_char, b64_char.
  destruct (nth_in_or_default (N.to_nat i) b64_alphabet b64_pad) as [H | H].
  - apply orb_true_iff; left. apply existsb_exists.
    eexists; split; [exact H|apply N.eqb_refl].
  - rewrite H, N.eqb_refl. apply orb_true_r.
Qed.

Lemma b64_pad_ok : is_b64_char b64_pad = true.
Proof. reflexivity. Qed.

(** Induction three bytes at a time, the way [b64encode] recurses. *)
Lemma triples_ind (P : list Byte.byte -> Prop) :
  P [] -> (forall a, P [a]) -> (forall a b, P [a; b]) ->
  (forall a b c rest, P rest -> P (a :: b :: c :: rest)) ->
  forall data, P data.
Proof.
  intros H0 H1 H2 H3. fix IH 1.
  intros [|a [|b [|c rest]]];
    [apply H0 | apply H1 | apply H2 | apply H3, IH].
Qed.

Lemma b64encode_chars (data : list Byte.byte) :
  forallb is_b64_char (b64encode data) = true.
Proof.
  induction data as [|a|a b|a b c rest IH] using triples_ind;
    cbn [b64encode forallb];
    rewrite ?b64_char_ok, ?b64_pad_ok, ?IH; reflexivity.
Qed.

Lemma b64encode_length (data : list Byte.byte) :
  exists k, length (b64encode data) = (4 * k)%nat.
Proof.
  induction data as [|a|a b|a b c rest [k IH]] using triples_ind.
  - exists 0%nat; reflexivity.
  - exists 1%nat; reflexivity.
  - exists 1%nat; reflexivity.
  - exists (S k). cbn [b64encode length]. rewrite IH. lia.
Qed.

Lemma b64encode_is_base64 (data : list Byte.byte) :
  is_base64 (b64encode data) = true.
Proof.
  unfold is_base64. rewrite b64encode_chars, andb_true_r.
  destruct (b64encode_length data) as [k ->].
  apply Nat.eqb_eq. rewrite Nat.mul_comm. apply Nat.Div0.mod_mul.
Qed.

(** ** Reduction and proof automation *)

Arguments lit : simpl never.
Arguments validate_prompt : simpl never.
Arguments enhance_prompt : simpl never.
Arguments truncated : simpl never.
Arguments b64encode : simpl never.
Arguments str_of_exn : simpl never.
Arguments Z.pow : simpl never.
Arguments Z.sub : simpl never.

Ltac in_calls :=
  repeat match goal with
    | H : In _ [] |- _ => destruct H
    | H : In _ (_ :: _) |- _ => destruct H
    | H : (_, _, _) = (_, _, _) |- _ => injection H as <- <- <-
    | H : (_, _) = (_, _) |- _ => injection H as <- <-
    end.

(** ** Symbolic runs of the generator and of [generate_image] *)

Lemma clamped_spec (steps : Z) :
  (1 <= steps <= 8 -> clamped steps = steps)
  /\ (~ 1 <= steps <= 8 -> clamped steps = 4).
Proof.
  unfold clamped, steps_out_of_range, Config.MAX_STEPS, Config.DEFAULT_STEPS.
  destruct (1 <=? steps) eqn:A, (steps <=? 8) eqn:B; simpl; lia.
Qed.

Lemma clamped_in_range (steps : Z) : 1 <= clamped steps <= 8.
Proof.
  destruct (clamped_spec steps) as [A B].
  destruct (Z_le_dec 1 steps), (Z_le_dec steps 8);
    try (rewrite A by lia; lia); rewrite B by lia; lia.
Qed.

Lemma clamped_idem (steps : Z) : clamped (clamped steps) = clamped steps.
Proof. apply clamped_spec, clamped_in_range. Qed.

Lemma generate_run (w : World) (prompt : pystr) (seed steps : Z)
  (tr : list event) :
  generate w prompt seed steps tr =
  match load_model w with
  | Some e => (inl e, tr ++ [EvLoadModel])
  | None =>
      let tr' := tr ++ EvLoadModel :: seed_events seed
                    ++ [EvPipe prompt (resolved w seed) steps] in
      match run_pipe w prompt (resolved w seed) steps with
      | inl e => (inl e, tr')
      | inr png => (inr (b64encode png, resolved w seed), tr')
      end
  end.
Proof.
  unfold generate, resolved, seed_events, bind, emit, of_failure, of_sum,
    ret, raise.
  destruct (load_model w); [reflexivity|].
  destruct (seed =? Config.DEFAULT_SEED); simpl;
    destruct (run_pipe w prompt _ steps); simpl;
    repeat rewrite <- app_assoc; reflexivity.
Qed.

Lemma generate_image_run (w : World) (prompt : pystr) (seed steps : Z)
  (tr : list event) :
  generate_image w prompt seed steps tr =
  if validate_prompt prompt then
    match load_model w with
    | Some e =>
        (inr (generate_image_failure e seed (clamped steps)),
         tr ++ [EvLoadModel])
    | None =>
        let tr' := tr ++ EvLoadModel :: seed_events seed
                      ++ [EvPipe prompt (resolved w seed) (clamped steps)] in
        match run_pipe w prompt (resolved w seed) (clamped steps) with
        | inl e => (inr (generate_image_failure e seed (clamped steps)), tr')
        | inr png =>
            (inr (generate_image_success (b64encode png) (resolved w seed)
                    (clamped steps) prompt), tr')
        end
    end
  else
    (inr (generate_image_failure
            (ValueError (lit "Invalid prompt provided")) seed steps), tr).
Proof.
  unfold generate_image.
  destruct (validate_prompt prompt); simpl; [|reflexivity].
  fold (clamped steps). unfold try_except, bind. rewrite generate_run.
  destruct (load_model w); [reflexivity|]. simpl.
  destruct (run_pipe w prompt _ _); reflexivity.
Qed.

(** ** Symbolic run of [generate_endpoint] *)

Lemma generate_endpoint_run (w : World) (prompt : pystr) (steps seed : Z) :
  let enhanced_prompt := enhance_prompt prompt Config.ANIME_STYLE_SUFFIX in
  let called := EvRemote enhanced_prompt seed (clamped steps) in
  run (generate_endpoint w prompt steps seed) =
  if validate_prompt prompt then
    match remote_transport w enhanced_prompt seed (clamped steps) with
    | Some e =>
        (inr (error_response (lit "Server error: " ++ str_of_exn e)),
         [called])
    | None =>
        if validate_prompt enhanced_prompt then
          match load_model w with
          | Some e =>
              (inr (error_response (str_of_exn e)), [called; EvLoadModel])
          | None =>
              let tr := called :: EvLoadModel :: seed_events seed
                          ++ [EvPipe enhanced_prompt (resolved w seed)
                                (clamped steps)] in
              match run_pipe w enhanced_prompt (resolved w seed)
                      (clamped steps) with
              | inl e => (inr (error_response (str_of_exn e)), tr)
              | inr png =>
                  (inr (success_response (b64encode png) (resolved w seed)
                          (clamped steps) prompt enhanced_prompt), tr)
              end
          end
        else
          (inr (error_response (lit "Invalid prompt provided")), [called])
    end
  else
    (inr (error_response (lit "Server error: 400: Invalid prompt")), []).
Proof.
  intros enhanced_prompt called.
  unfold run, generate_endpoint, try_except.
  destruct (validate_prompt prompt); simpl; [|reflexivity].
  fold (clamped steps). fold enhanced_prompt.
  unfold remote, bind, emit, of_failure. simpl. fold called.
  destruct (remote_transport w enhanced_prompt seed (clamped steps));
    [reflexivity|].
  unfold ret at 1. rewrite generate_image_run, clamped_idem.
  destruct (validate_prompt enhanced_prompt); [|reflexivity].
  destruct (load_model w); [reflexivity|]. simpl.
  destruct (run_pipe w enhanced_prompt _ _); reflexivity.
Qed.

(** ** Calls recorded in a trace *)

Lemma pipe_calls_seed_events (seed : Z) (tr : list event) :
  pipe_calls (seed_events seed ++ tr) = pipe_calls tr.
Proof. unfold seed_events. destruct (seed =? _); reflexivity. Qed.

Lemma remote_calls_seed_events (seed : Z) (tr : list event) :
  remote_calls (seed_events seed ++ tr) = remote_calls tr.
Proof. unfold seed_events. destruct (seed =? _); reflexivity. Qed.

Lemma randint_calls_seed_events (seed : Z) (tr : list event) :
  randint_calls (seed_events seed ++ tr)
  = (if seed =? Config.DEFAULT_SEED then [(0, 2 ^ 32 - 1)] else [])
    ++ randint_calls tr.
Proof. unfold seed_events. destruct (seed =? _); reflexivity. Qed.

Ltac calls :=
  cbn [pipe_calls remote_calls randint_calls flat_map app];
  rewrite ?pipe_calls_seed_events, ?remote_calls_seed_events,
    ?randint_calls_seed_events;
  cbn [pipe_calls remote_calls randint_calls flat_map app].

Lemma generate_image_outcome (w : World) (prompt : pystr) (seed steps : Z) :
  exists result tr,
    run (generate_image w prompt seed steps) = (inr result, tr)
    /\ image_outcome w prompt seed steps result tr.
Proof.
  unfold run. rewrite generate_image_run.
  destruct (validate_prompt prompt) eqn:V.
  - destruct (load_model w) as [e|] eqn:L.
    + do 2 eexists; split; [reflexivity|]. now apply ImageLoadFailed.
    + simpl. destruct (run_pipe w prompt _ _) as [e|png] eqn:P;
        do 2 eexists; (split; [reflexivity|]).
      * now apply ImagePipeFailed.
      * now apply ImageGenerated.
  - do 2 eexists; split; [reflexivity|]. now apply ImageRejected.
Qed.

Lemma generate_image_inv (w : World) (prompt : pystr) (seed steps : Z)
  (r : exn + dict) (tr : list event) :
  run (generate_image w prompt seed steps) = (r, tr) ->
  exists result,
    r = inr result /\ image_outcome w prompt seed steps result tr.
Proof.
  destruct (generate_image_outcome w prompt seed steps)
    as (res & tr' & E & O).
  rewrite E. intros [= <- <-]. eauto.
Qed.

Lemma generate_endpoint_outcome (w : World) (prompt : pystr) (steps seed : Z) :
  exists resp tr,
    run (generate_endpoint w prompt steps seed) = (inr resp, tr)
    /\ endpoint_outcome w prompt steps seed resp tr.
Proof.
  rewrite generate_endpoint_run.
  destruct (validate_prompt prompt) eqn:V.
  - destruct (remote_transport w _ seed (clamped steps)) as [e|] eqn:T.
    + do 2 eexists; split; [reflexivity|]. now apply TransportFailed.
    + destruct (validate_prompt (enhance_prompt prompt _)) eqn:V'.
      * destruct (load_model w) as [e|] eqn:L.
        -- do 2 eexists; split; [reflexivity|]. now apply LoadFailed.
        -- destruct (run_pipe w _ _ _) as [e|png] eqn:P;
             do 2 eexists; (split; [reflexivity|]).
           ++ now apply PipeFailed.
           ++ now apply Generated.
      * do 2 eexists; split; [reflexivity|]. now apply EnhancedRejected.
  - do 2 eexists; split; [reflexivity|]. now apply Rejected.
Qed.

Lemma generate_endpoint_inv (w : World) (prompt : pystr) (steps seed : Z)
  (r : exn + response) (tr : list event) :
  run (generate_endpoint w prompt steps seed) = (r, tr) ->
  exists resp,
    r = inr resp /\ endpoint_outcome w prompt steps seed resp tr.
Proof.
  destruct (generate_endpoint_outcome w prompt steps seed)
    as (resp & tr' & E & O).
  rewrite E. intros [= <- <-]. eauto.
Qed.

(** ** C1: a rejected prompt and the status of the response *)

Lemma generate_endpoint_rejects (w : World) (prompt : pystr) (steps seed : Z) :
  validate_prompt prompt = false ->
  run (generate_endpoint w prompt steps seed) =
  (inr (error_response (lit "Server error: 400: Invalid prompt")), []).
Proof. intros V. rewrite generate_endpoint_run, V. reflexivity. Qed.

(** C1 (what the code does where the claim expects a 4xx status): a prompt of
    1001 characters fails validation, the [HTTPException] with status 400
    raised for it is caught by the handler's own [except Exception], and the
    response sent has status 500, whatever the world, the steps and the
    seed. *)
Theorem generate_endpoint_overlong_prompt_gets_500
  (w : World) (steps seed : Z) :
  let prompt := repeat 97%N 1001 in
  validate_prompt prompt = false
  /\ exists resp,
       run (generate_endpoint w prompt steps seed) = (inr resp, [])
       /\ status_code resp = 500
       /\ content resp =
          [("success", JBool false);
           ("error", JStr (lit "Server error: 400: Invalid prompt"))].
Proof.
  intros prompt.
  assert (V : validate_prompt prompt = false) by (vm_compute; reflexivity).
  split; [exact V|].
  eexists; split; [apply generate_endpoint_rejects, V|].
  split; reflexivity.
Qed.

(** ** C2: what the validator rejects *)

(** C2 (counterexample): a single space has length 1, neither 0 nor above
    1000, and is rejected. *)
Lemma validate_prompt_length_only_counterexample :
  ~ (forall prompt : pystr,
       validate_prompt prompt = false <->
       (length prompt = 0 \/ 1000 < length prompt)%nat).
Proof.
  intros H. specialize (H (lit " ")).
  assert (V : validate_prompt (lit " ") = false) by reflexivity.
  apply H in V. vm_compute in V. destruct V as [V | V]; [discriminate|].
  lia.
Qed.

(** C2 (amended): a prompt is rejected exactly when all of its characters are
    whitespace (the empty prompt included: its stripped length is 0) or its
    length is above 1000; it is accepted otherwise. *)
Theorem validate_prompt_rejects_blank_or_overlong (prompt : pystr) :
  (validate_prompt prompt = false <->
   length (strip prompt) = 0%nat \/ (1000 < length prompt)%nat)
  /\ (length (strip prompt) = 0%nat <->
      Forall (fun c => isspace c = true) prompt)
  /\ (validate_prompt prompt = true <->
      (exists c, In c prompt /\ isspace c = false)
      /\ (length prompt <= 1000)%nat).
Proof.
  assert (B : length (strip prompt) = 0%nat <-> forallb isspace prompt = true).
  { rewrite <- strip_nil_iff. apply length_zero_iff_nil. }
  assert (F : validate_prompt prompt = false <->
              length (strip prompt) = 0%nat \/ (1000 < length prompt)%nat).
  { rewrite validate_prompt_false_iff, B. reflexivity. }
  split; [exact F|]. split.
  - rewrite B, forallb_forall, Forall_forall. reflexivity.
  - split.
    + intros V. split.
      * destruct (forallb isspace prompt) eqn:E.
        -- assert (validate_prompt prompt = false)
             by (apply validate_prompt_false_iff; now left).
           congruence.
        -- assert (N : ~ forallb isspace prompt = true) by congruence.
           rewrite forallb_forall in N.
           destruct (existsb (fun c => negb (isspace c)) prompt) eqn:X.
           ++ apply existsb_exists in X as (c & I & Hc).
              exists c. split; [exact I|]. now apply negb_true_iff.
           ++ exfalso. apply N. intros c I.
              destruct (isspace c) eqn:Hc; [reflexivity|].
              assert (existsb (fun c => negb (isspace c)) prompt = true)
                by (apply existsb_exists; exists c; rewrite Hc; auto).
              congruence.
      * now apply validate_prompt_true_length.
    + intros [(c & I & Hc) L].
      destruct (validate_prompt prompt) eqn:V; [reflexivity|].
      apply validate_prompt_false_iff in V as [V | V]; [|lia].
      rewrite forallb_forall in V. apply V in I. congruence.
Qed.

(** ** C5: the enhanced prompt *)

Lemma str_eqb_refl (s : pystr) : str_eqb s s = true.
Proof.
  induction s as [|c s IH]; simpl; [reflexivity|].
  now rewrite N.eqb_refl, IH.
Qed.

Lemma endswith_app (s suffix : pystr) : endswith (s ++ suffix) suffix = true.
Proof.
  unfold endswith. rewrite length_app.
  replace (length s + length suffix - length suffix)%nat with (length s)
    by lia.
  rewrite skipn_app, skipn_all, Nat.sub_diag. simpl.
  rewrite str_eqb_refl, andb_true_r. apply Nat.leb_le. lia.
Qed.

(** What a run of the endpoint calls: the remote function at most once, with
    the enhanced prompt, the seed as submitted and the clamped steps; the
    pipeline at most once, with the enhanced prompt, the resolved seed and
    the clamped steps; [randint] only for the sentinel seed. *)
Lemma endpoint_outcome_calls (w : World) (prompt : pystr) (steps seed : Z)
  (resp : response) (tr : list event) :
  endpoint_outcome w prompt steps seed resp tr ->
  let enhanced_prompt := enhance_prompt prompt Config.ANIME_STYLE_SUFFIX in
  (remote_calls tr = []
   \/ remote_calls tr = [(enhanced_prompt, seed, clamped steps)])
  /\ (pipe_calls tr = []
      \/ pipe_calls tr = [(enhanced_prompt, resolved w seed, clamped steps)])
  /\ (randint_calls tr = []
      \/ seed = Config.DEFAULT_SEED /\ randint_calls tr = [(0, 2 ^ 32 - 1)]).
Proof.
  intros O ep.
  inversion O; subst; clear O; calls; auto;
    destruct (seed =? Config.DEFAULT_SEED) eqn:S; simpl; auto;
    apply Z.eqb_eq in S; auto 6.
Qed.

Lemma image_outcome_calls (w : World) (prompt : pystr) (seed steps : Z)
  (result : dict) (tr : list event) :
  image_outcome w prompt seed steps result tr ->
  (pipe_calls tr = []
   \/ pipe_calls tr = [(prompt, resolved w seed, clamped steps)])
  /\ (randint_calls tr = []
      \/ seed = Config.DEFAULT_SEED /\ randint_calls tr = [(0, 2 ^ 32 - 1)]).
Proof.
  intros O.
  inversion O; subst; clear O; calls; auto;
    destruct (seed =? Config.DEFAULT_SEED) eqn:S; simpl; auto;
    apply Z.eqb_eq in S; auto 6.
Qed.

(** C5: the enhanced prompt is the stripped user prompt followed by the
    anime style suffix, so it ends with the suffix; the prompt the endpoint
    hands to the remote function, and the one the pipeline receives, is that
    enhanced prompt. *)
Theorem enhance_prompt_ends_with_style_suffix (user_prompt : pystr) :
  enhance_prompt user_prompt Config.ANIME_STYLE_SUFFIX
  = strip user_prompt ++ Config.ANIME_STYLE_SUFFIX
  /\ endswith (enhance_prompt user_prompt Config.ANIME_STYLE_SUFFIX)
       Config.ANIME_STYLE_SUFFIX = true
  /\ forall w steps seed r tr p s st,
       run (generate_endpoint w user_prompt steps seed) = (r, tr) ->
       In (p, s, st) (remote_calls tr ++ pipe_calls tr) ->
       endswith p Config.ANIME_STYLE_SUFFIX = true.
Proof.
  split; [reflexivity|]. split; [apply endswith_app|].
  intros w steps seed r tr p s st E I.
  apply generate_endpoint_inv in E as (resp & _ & O).
  apply endpoint_outcome_calls in O as ([R | R] & [P | P] & _);
    rewrite R, P in I; simpl in I;
    repeat match goal with
      | H : _ \/ _ |- _ => destruct H
      | H : False |- _ => destruct H
      | H : (_, _, _) = (_, _, _) |- _ => injection H as <- <- <-
      end; apply endswith_app.
Qed.

(** ** C3: the step count *)

Lemma endpoint_outcome_steps (w : World) (prompt : pystr) (steps seed : Z)
  (resp : response) (tr : list event) :
  endpoint_outcome w prompt steps seed resp tr ->
  (forall v, lookup "steps" (content resp) = Some v ->
             v = JInt (clamped steps))
  /\ (status_code resp = 200 ->
      lookup "steps" (content resp) = Some (JInt (clamped steps))).
Proof.
  intros O; inversion O; subst; clear O; simpl; split;
    first [discriminate | congruence | reflexivity].
Qed.

Lemma image_outcome_steps (w : World) (prompt : pystr) (seed steps : Z)
  (result : dict) (tr : list event) :
  image_outcome w prompt seed steps result tr ->
  validate_prompt prompt = true ->
  lookup "steps" result = Some (JInt (clamped steps)).
Proof.
  intros O V; inversion O; subst; clear O; first [reflexivity | congruence].
Qed.

Lemma image_outcome_success_valid (w : World) (prompt : pystr)
  (seed steps : Z) (result : dict) (tr : list event) :
  image_outcome w prompt seed steps result tr ->
  lookup "success" result = Some (JBool true) ->
  validate_prompt prompt = true.
Proof.
  intros O S; inversion O; subst; clear O; first [assumption | discriminate].
Qed.

(** C3: with [used] the submitted step count when it lies in [1,8] and 4
    otherwise, every run of [/generate] returns a response; the remote
    function and the pipeline are called with [used] steps; a response that
    carries a [steps] field carries [used], and a successful one does carry
    it.  Likewise [generate_image], called directly, runs the pipeline with
    [used] steps and reports [used] whenever it gets as far as generating
    (its prompt is valid), in particular in every successful result. *)
Theorem steps_outside_range_replaced_by_default
  (w : World) (prompt : pystr) (steps seed : Z) :
  exists used : Z,
    ((1 <= steps <= 8 -> used = steps) /\ (~ 1 <= steps <= 8 -> used = 4))
    /\ (forall r tr,
          run (generate_endpoint w prompt steps seed) = (r, tr) ->
          exists resp,
            r = inr resp
            /\ (forall p s st,
                  In (p, s, st) (remote_calls tr ++ pipe_calls tr) ->
                  st = used)
            /\ (forall v, lookup "steps" (content resp) = Some v ->
                          v = JInt used)
            /\ (status_code resp = 200 ->
                lookup "steps" (content resp) = Some (JInt used)))
    /\ (forall r tr,
          run (generate_image w prompt seed steps) = (r, tr) ->
          exists result,
            r = inr result
            /\ (forall p s st, In (p, s, st) (pipe_calls tr) -> st = used)
            /\ (validate_prompt prompt = true ->
                lookup "steps" result = Some (JInt used))
            /\ (lookup "success" result = Some (JBool true) ->
                lookup "steps" result = Some (JInt used))).
Proof.
  exists (clamped steps). split; [apply clamped_spec|]. split.
  - intros r tr E. apply generate_endpoint_inv in E as (resp & -> & O).
    exists resp. split; [reflexivity|].
    destruct (endpoint_outcome_steps _ _ _ _ _ _ O) as [A B].
    split; [|split; assumption].
    intros p s st I.
    apply endpoint_outcome_calls in O as ([R | R] & [P | P] & _);
      rewrite R, P in I; simpl in I;
      repeat match goal with
        | H : _ \/ _ |- _ => destruct H
        | H : False |- _ => destruct H
        | H : (_, _, _) = (_, _, _) |- _ => injection H as <- <- <-
        end; reflexivity.
  - intros r tr E. apply generate_image_inv in E as (result & -> & O).
    exists result. split; [reflexivity|]. split; [|split].
    + intros p s st I.
      apply image_outcome_calls in O as ([P | P] & _);
        rewrite P in I; simpl in I;
        repeat match goal with
          | H : _ \/ _ |- _ => destruct H
          | H : False |- _ => destruct H
          | H : (_, _, _) = (_, _, _) |- _ => injection H as <- <- <-
          end; reflexivity.
    + now apply image_outcome_steps with (1 := O).
    + intros S. apply image_outcome_steps with (1 := O).
      now apply image_outcome_success_valid with (1 := O).
Qed.

(** A request with 9 steps in a world where everything works: the pipeline
    runs once with 4 steps and the response reports 4. *)
Lemma steps_outside_range_replaced_by_default_witness :
  exists resp tr,
    run (generate_endpoint world_ok (lit "a cat") 9 7) = (inr resp, tr)
    /\ status_code resp = 200
    /\ lookup "steps" (content resp) = Some (JInt 4)
    /\ map snd (pipe_calls tr) = [4].
Proof.
  do 2 eexists. split; [reflexivity|].
  destruct (steps_outside_range_replaced_by_default
              world_ok (lit "a cat") 9 7) as (used & [_ D] & H & _).
  specialize (H _ _ eq_refl) as (resp & E & C & _ & R).
  injection E as <-.
  rewrite (D ltac:(lia)) in R.
  split; [reflexivity|]. split; [exact (R eq_refl)|reflexivity].
Defined.

(** ** C4 and C8: the seed *)

Lemma resolved_sentinel (w : World) :
  resolved w Config.DEFAULT_SEED = randint w 0 (2 ^ 32 - 1).
Proof. reflexivity. Qed.

Lemma resolved_explicit (w : World) (seed : Z) :
  seed <> -1 -> resolved w seed = seed.
Proof.
  intros H. unfold resolved, Config.DEFAULT_SEED.
  destruct (seed =? -1) eqn:E; [apply Z.eqb_eq in E; contradiction|reflexivity].
Qed.

(** A run that reaches the pipeline has drawn once for the sentinel seed and
    not at all for any other. *)
Lemma endpoint_outcome_draws (w : World) (prompt : pystr) (steps seed : Z)
  (resp : response) (tr : list event) :
  endpoint_outcome w prompt steps seed resp tr ->
  pipe_calls tr <> [] ->
  randint_calls tr
  = if seed =? Config.DEFAULT_SEED then [(0, 2 ^ 32 - 1)] else [].
Proof.
  intros O; inversion O; subst; clear O; calls; intros N;
    try congruence; now rewrite app_nil_r.
Qed.

Lemma image_outcome_draws (w : World) (prompt : pystr) (seed steps : Z)
  (result : dict) (tr : list event) :
  image_outcome w prompt seed steps result tr ->
  pipe_calls tr <> [] ->
  randint_calls tr
  = if seed =? Config.DEFAULT_SEED then [(0, 2 ^ 32 - 1)] else [].
Proof.
  intros O; inversion O; subst; clear O; calls; intros N;
    try congruence; now rewrite app_nil_r.
Qed.

(** A successful response reports the resolved seed, and the pipeline ran
    exactly once, with that seed. *)
Lemma endpoint_outcome_success (w : World) (prompt : pystr) (steps seed : Z)
  (resp : response) (tr : list event) :
  endpoint_outcome w prompt steps seed resp tr ->
  status_code resp = 200 ->
  lookup "seed" (content resp) = Some (JInt (resolved w seed))
  /\ pipe_calls tr
     = [(enhance_prompt prompt Config.ANIME_STYLE_SUFFIX, resolved w seed,
         clamped steps)].
Proof.
  intros O; inversion O; subst; clear O; simpl; intros S;
    try discriminate. calls. auto.
Qed.

Lemma image_outcome_success (w : World) (prompt : pystr) (seed steps : Z)
  (result : dict) (tr : list event) :
  image_outcome w prompt seed steps result tr ->
  lookup "success" result = Some (JBool true) ->
  lookup "seed" result = Some (JInt (resolved w seed))
  /\ pipe_calls tr = [(prompt, resolved w seed, clamped steps)].
Proof.
  intros O; inversion O; subst; clear O; simpl; intros S;
    try discriminate. calls. auto.
Qed.

(** C4: for the sentinel seed -1, and [random.randint] keeping its contract
    (a value between its bounds), the seed [used] is the value drawn by
    [randint(0, 2**32 - 1)] itself, unchanged: it lies in [0, 2^32 - 1], and
    it takes a value exactly when the draw does, so it is distributed as the
    draw is (uniformly, by the library's contract).  [used] is the seed every
    pipeline run of the request receives and the seed a successful response
    or result reports; a run that reaches the pipeline has drawn exactly
    once, from the 32-bit range. *)
Theorem sentinel_seed_is_the_32_bit_draw
  (w : World) (prompt : pystr) (steps : Z) :
  (forall lo hi, lo <= hi -> lo <= randint w lo hi <= hi) ->
  exists used : Z,
    0 <= used <= 2 ^ 32 - 1
    /\ (forall v, used = v <-> randint w 0 (2 ^ 32 - 1) = v)
    /\ (forall r tr,
          run (generate_endpoint w prompt steps Config.DEFAULT_SEED)
          = (r, tr) ->
          exists resp,
            r = inr resp
            /\ (forall p s st, In (p, s, st) (pipe_calls tr) -> s = used)
            /\ (pipe_calls tr <> [] ->
                randint_calls tr = [(0, 2 ^ 32 - 1)])
            /\ (status_code resp = 200 ->
                lookup "seed" (content resp) = Some (JInt used)
                /\ map (fun c => snd (fst c)) (pipe_calls tr) = [used]))
    /\ (forall r tr,
          run (generate_image w prompt Config.DEFAULT_SEED steps)
          = (r, tr) ->
          exists result,
            r = inr result
            /\ (forall p s st, In (p, s, st) (pipe_calls tr) -> s = used)
            /\ (pipe_calls tr <> [] ->
                randint_calls tr = [(0, 2 ^ 32 - 1)])
            /\ (lookup "success" result = Some (JBool true) ->
                lookup "seed" result = Some (JInt used)
                /\ map (fun c => snd (fst c)) (pipe_calls tr) = [used])).
Proof.
  intros contract.
  exists (resolved w Config.DEFAULT_SEED). rewrite resolved_sentinel.
  split; [apply contract; lia|].
  split; [intros v; reflexivity|]. split.
  - intros r tr E. apply generate_endpoint_inv in E as (resp & -> & O).
    exists resp. split; [reflexivity|]. split; [|split].
    + intros p s st I.
      destruct (endpoint_outcome_calls _ _ _ _ _ _ O) as (_ & [P | P] & _);
        rewrite P in I; in_calls; reflexivity.
    + intros N. now rewrite (endpoint_outcome_draws _ _ _ _ _ _ O N).
    + intros S.
      destruct (endpoint_outcome_success _ _ _ _ _ _ O S) as [A ->].
      split; [exact A|reflexivity].
  - intros r tr E. apply generate_image_inv in E as (result & -> & O).
    exists result. split; [reflexivity|]. split; [|split].
    + intros p s st I.
      destruct (image_outcome_calls _ _ _ _ _ _ O) as ([P | P] & _);
        rewrite P in I; in_calls; reflexivity.
    + intros N. now rewrite (image_outcome_draws _ _ _ _ _ _ O N).
    + intros S.
      destruct (image_outcome_success _ _ _ _ _ _ O S) as [A ->].
      split; [exact A|reflexivity].
Qed.

(** In a world whose [randint] returns its upper bound, a request with seed
    -1 is generated with seed 2^32 - 1 and reports it. *)
Lemma sentinel_seed_is_the_32_bit_draw_witness :
  (forall lo hi, lo <= hi -> lo <= randint world_ok lo hi <= hi)
  /\ exists resp tr,
       run (generate_endpoint world_ok (lit "a cat") 4 (-1)) = (inr resp, tr)
       /\ status_code resp = 200
       /\ lookup "seed" (content resp) = Some (JInt 4294967295)
       /\ randint_calls tr = [(0, 4294967295)].
Proof.
  assert (contract : forall lo hi,
             lo <= hi -> lo <= randint world_ok lo hi <= hi)
    by (simpl; lia).
  split; [exact contract|].
  do 2 eexists. split; [reflexivity|].
  destruct (sentinel_seed_is_the_32_bit_draw world_ok (lit "a cat") 4 contract)
    as (used & _ & D & H & _).
  specialize (H _ _ eq_refl) as (resp & E & _ & R & S).
  injection E as <-.
  split; [reflexivity|]. split.
  - destruct (S eq_refl) as [A _].
    rewrite (proj2 (D 4294967295) eq_refl) in A. exact A.
  - apply R. discriminate.
Defined.

Lemma image_outcome_reaches_pipe (w : World) (prompt : pystr)
  (seed steps : Z) (result : dict) (tr : list event) :
  image_outcome w prompt seed steps result tr ->
  validate_prompt prompt = true ->
  load_model w = None ->
  pipe_calls tr = [(prompt, resolved w seed, clamped steps)].
Proof.
  intros O V L; inversion O; subst; clear O; calls;
    first [reflexivity | congruence].
Qed.

(** C8: a seed other than -1, of any sign and size, is never replaced and
    never checked: no draw is made, every remote call and every pipeline run
    of the request receives the seed as submitted, [generate_image] runs the
    pipeline with it whenever its prompt is valid and the model loads, and a
    successful response or result reports it. *)
Theorem explicit_seed_passed_through_unchanged
  (w : World) (prompt : pystr) (seed steps : Z) :
  seed <> -1 ->
  (forall r tr,
     run (generate_endpoint w prompt steps seed) = (r, tr) ->
     exists resp,
       r = inr resp
       /\ randint_calls tr = []
       /\ (forall p s st,
             In (p, s, st) (remote_calls tr ++ pipe_calls tr) -> s = seed)
       /\ (status_code resp = 200 ->
           lookup "seed" (content resp) = Some (JInt seed)
           /\ map (fun c => snd (fst c)) (pipe_calls tr) = [seed]))
  /\ (forall r tr,
        run (generate_image w prompt seed steps) = (r, tr) ->
        exists result,
          r = inr result
          /\ randint_calls tr = []
          /\ (forall p s st, In (p, s, st) (pipe_calls tr) -> s = seed)
          /\ (validate_prompt prompt = true -> load_model w = None ->
              map (fun c => snd (fst c)) (pipe_calls tr) = [seed])
          /\ (lookup "success" result = Some (JBool true) ->
              lookup "seed" result = Some (JInt seed))).
Proof.
  intros N. pose proof (resolved_explicit w seed N) as Rs. split.
  - intros r tr E. apply generate_endpoint_inv in E as (resp & -> & O).
    exists resp. split; [reflexivity|].
    destruct (endpoint_outcome_calls _ _ _ _ _ _ O) as (R & P & D).
    rewrite Rs in P. split; [|split].
    + destruct D as [D | [D _]]; [exact D|]. now elim N.
    + intros p s st I.
      destruct R as [R | R], P as [P | P]; rewrite R, P in I;
        cbn [app] in I; in_calls; reflexivity.
    + intros S.
      destruct (endpoint_outcome_success _ _ _ _ _ _ O S) as [A ->].
      rewrite Rs in *. split; [exact A|reflexivity].
  - intros r tr E. apply generate_image_inv in E as (result & -> & O).
    exists result. split; [reflexivity|].
    destruct (image_outcome_calls _ _ _ _ _ _ O) as (P & D).
    rewrite Rs in P. split; [|split; [|split]].
    + destruct D as [D | [D _]]; [exact D|]. now elim N.
    + intros p s st I.
      destruct P as [P | P]; rewrite P in I; in_calls; reflexivity.
    + intros V L.
      rewrite (image_outcome_reaches_pipe _ _ _ _ _ _ O V L), Rs.
      reflexivity.
    + intros S.
      destruct (image_outcome_success _ _ _ _ _ _ O S) as [A _].
      now rewrite Rs in A.
Qed.

(** The seed 2^32 + 5, above the 32-bit range, comes back as submitted. *)
Lemma explicit_seed_passed_through_unchanged_witness :
  2 ^ 32 + 5 <> -1
  /\ exists resp tr,
       run (generate_endpoint world_ok (lit "a cat") 4 (2 ^ 32 + 5))
       = (inr resp, tr)
       /\ status_code resp = 200
       /\ lookup "seed" (content resp) = Some (JInt (2 ^ 32 + 5))
       /\ randint_calls tr = [].
Proof.
  assert (N : 2 ^ 32 + 5 <> -1) by (vm_compute; discriminate).
  split; [exact N|].
  do 2 eexists. split; [reflexivity|].
  destruct (explicit_seed_passed_through_unchanged
              world_ok (lit "a cat") (2 ^ 32 + 5) 4 N) as [H _].
  specialize (H _ _ eq_refl) as (resp & E & D & _ & S).
  injection E as <-.
  split; [reflexivity|]. split; [exact (proj1 (S eq_refl))|exact D].
Defined.

(** ** C6: an exception inside the inference call *)

Lemma generate_raises_inv (w : World) (prompt : pystr) (seed steps : Z)
  (e : exn) :
  fst (run (generate w prompt seed steps)) = inl e ->
  load_model w = Some e
  \/ load_model w = None /\ run_pipe w prompt (resolved w seed) steps = inl e.
Proof.
  unfold run. rewrite generate_run.
  destruct (load_model w) as [e'|]; simpl.
  - intros [= ->]. now left.
  - destruct (run_pipe w prompt _ steps); simpl; intros [= ->]. now right.
Qed.

(** C6: whatever exception [e] is raised inside [generate_image] (by its
    validation, or by the inference call: the model fails to load, or
    seeding, the pipeline or the PNG encoding fails), [generate_image]
    catches it: it returns, and what it returns is the failure dictionary,
    with [success] false and [error] the text of [e].  The endpoint, when
    the remote call itself goes through, answers with status 500 and the
    body [{success: false, error: str(e)}].  Nothing is tried twice: the
    trace holds at most one model load followed by at most one pipeline run,
    and for the endpoint one remote call. *)
Theorem inference_exception_reported_without_retry
  (w : World) (prompt : pystr) (seed steps : Z) (e : exn) :
  raised_in_generate_image w prompt seed steps e ->
  (exists result tr,
     run (generate_image w prompt seed steps) = (inr result, tr)
     /\ keys result = ["success"; "error"; "seed"; "steps"]
     /\ lookup "success" result = Some (JBool false)
     /\ lookup "error" result = Some (JStr (str_of_exn e))
     /\ (tr = [] \/ tr = [EvLoadModel]
         \/ tr = EvLoadModel :: seed_events seed
                   ++ [EvPipe prompt (resolved w seed) (clamped steps)])
     /\ (length (pipe_calls tr) <= 1)%nat)
  /\ (forall user_prompt,
        validate_prompt user_prompt = true ->
        enhance_prompt user_prompt Config.ANIME_STYLE_SUFFIX = prompt ->
        remote_transport w prompt seed (clamped steps) = None ->
        exists resp tr,
          run (generate_endpoint w user_prompt steps seed) = (inr resp, tr)
          /\ status_code resp = 500
          /\ content resp = [("success", JBool false);
                             ("error", JStr (str_of_exn e))]
          /\ remote_calls tr = [(prompt, seed, clamped steps)]
          /\ (length (pipe_calls tr) <= 1)%nat).
Proof.
  intros [[V ->] | [V G]].
  - split.
    + unfold run. rewrite generate_image_run, V.
      do 2 eexists. split; [reflexivity|]. repeat split; auto.
    + intros user_prompt U <- T.
      rewrite generate_endpoint_run, U, T, V.
      do 2 eexists. split; [reflexivity|]. repeat split; auto.
  - apply generate_raises_inv in G. split.
    + unfold run. rewrite generate_image_run, V.
      destruct G as [L | [L P]]; rewrite L; [|simpl; rewrite P];
        do 2 eexists; (split; [reflexivity|]);
        do 3 (split; [reflexivity|]); calls; auto.
    + intros user_prompt U <- T.
      rewrite generate_endpoint_run, U, T, V.
      destruct G as [L | [L P]]; rewrite L; [|simpl; rewrite P];
        do 2 eexists; (split; [reflexivity|]);
        do 2 (split; [reflexivity|]); calls; auto.
Qed.

(** The pipeline runs out of memory: the endpoint answers 500 with the
    text of the exception, after one pipeline run. *)
Lemma inference_exception_reported_without_retry_witness :
  let prompt := enhance_prompt (lit "a cat") Config.ANIME_STYLE_SUFFIX in
  raised_in_generate_image world_failing prompt 7 4
    (ExternalError (lit "CUDA out of memory"))
  /\ exists resp tr,
       run (generate_endpoint world_failing (lit "a cat") 4 7)
       = (inr resp, tr)
       /\ status_code resp = 500
       /\ content resp = [("success", JBool false);
                          ("error", JStr (lit "CUDA out of memory"))]
       /\ length (pipe_calls tr) = 1%nat.
Proof.
  intros prompt.
  assert (G : raised_in_generate_image world_failing prompt 7 4
                (ExternalError (lit "CUDA out of memory")))
    by (right; split; reflexivity).
  split; [exact G|].
  destruct (inference_exception_reported_without_retry
              world_failing prompt 7 4 _ G) as [_ H].
  destruct (H (lit "a cat") eq_refl eq_refl eq_refl)
    as (resp & tr & E & S & C & _ & _).
  exists resp, tr. split; [exact E|]. split; [exact S|].
  split; [exact C|].
  vm_compute in E. injection E as _ <-. reflexivity.
Defined.

(** ** C7: the shape of the response *)

Lemma truncated_spec (s : pystr) :
  ((100 < length s)%nat -> truncated s = firstn 100 s ++ lit "...")
  /\ ((length s <= 100)%nat -> truncated s = s).
Proof.
  unfold truncated, slice_to.
  destruct (100 <? length s)%nat eqn:E.
  - apply Nat.ltb_lt in E. split; [reflexivity|lia].
  - apply Nat.ltb_ge in E. split; [lia|reflexivity].
Qed.

(** C7: every request gets a response, of one of two shapes.  A successful
    one has status 200 and exactly the fields [success] (true), [image] (a
    base64 string), [seed], [steps], [original_prompt] (the prompt as
    submitted) and [enhanced_prompt] (the enhanced prompt, cut to its first
    100 characters followed by [...] when it is longer than 100).  Any other
    has status 500 and exactly the fields [success] (false) and [error] (a
    string).  A request is successful when both validations pass, the remote
    call goes through, the model loads and the pipeline returns an image,
    and [image] is then the base64 encoding of that image. *)
Theorem generate_endpoint_response_fields
  (w : World) (prompt : pystr) (steps seed : Z) :
  let enhanced_prompt := enhance_prompt prompt Config.ANIME_STYLE_SUFFIX in
  exists resp tr,
    run (generate_endpoint w prompt steps seed) = (inr resp, tr)
    /\ ((status_code resp = 200
         /\ exists image used_seed used_steps shown,
              content resp =
              [("success", JBool true);
               ("image", JStr image);
               ("seed", JInt used_seed);
               ("steps", JInt used_steps);
               ("original_prompt", JStr prompt);
               ("enhanced_prompt", JStr shown)]
              /\ is_base64 image = true
              /\ ((100 < length enhanced_prompt)%nat ->
                  shown = firstn 100 enhanced_prompt ++ lit "...")
              /\ ((length enhanced_prompt <= 100)%nat ->
                  shown = enhanced_prompt))
        \/ (status_code resp = 500
            /\ exists error,
                 content resp =
                 [("success", JBool false); ("error", JStr error)]))
    /\ (forall png,
          validate_prompt prompt = true ->
          validate_prompt enhanced_prompt = true ->
          remote_transport w enhanced_prompt seed (clamped steps) = None ->
          load_model w = None ->
          run_pipe w enhanced_prompt (resolved w seed) (clamped steps)
          = inr png ->
          status_code resp = 200
          /\ lookup "image" (content resp) = Some (JStr (b64encode png))).
Proof.
  intros enhanced_prompt.
  destruct (generate_endpoint_outcome w prompt steps seed)
    as (resp & tr & E & O).
  exists resp, tr. split; [exact E|].
  inversion O; subst; clear O;
    repeat match goal with x := _ |- _ => subst x end;
    (split;
     [ first
         [ right; split; [reflexivity|]; eexists; reflexivity
         | left; split; [reflexivity|];
           do 4 eexists; split; [reflexivity|];
           split; [apply b64encode_is_base64|apply truncated_spec] ]
     | intros png' V V' T L P; try congruence ]).
  split; [reflexivity|]. simpl.
  replace png' with png by congruence. reflexivity.
Qed.

(** In a world where everything works, the request for "a cat" succeeds and
    its image is the base64 text of the two bytes the pipeline returned. *)
Lemma generate_endpoint_response_fields_witness :
  exists resp tr,
    run (generate_endpoint world_ok (lit "a cat") 4 7) = (inr resp, tr)
    /\ status_code resp = 200
    /\ lookup "image" (content resp) = Some (JStr (lit "TWE="))
    /\ keys (content resp)
       = ["success"; "image"; "seed"; "steps"; "original_prompt";
          "enhanced_prompt"].
Proof.
  destruct (generate_endpoint_response_fields world_ok (lit "a cat") 4 7)
    as (resp & tr & E & _ & H).
  destruct (H _ eq_refl eq_refl eq_refl eq_refl eq_refl) as [S I].
  exists resp, tr. split; [exact E|]. split; [exact S|]. split; [exact I|].
  vm_compute in E. injection E as <- _. reflexivity.
Defined.

(** ** C9: a prompt too long once enhanced *)

Lemma enhance_prompt_length (prompt suffix : pystr) :
  length (enhance_prompt prompt suffix)
  = (length (strip prompt) + length suffix)%nat.
Proof. unfold enhance_prompt. apply length_app. Qed.

(** C9: a prompt that passes the endpoint's validation, and whose stripped
    length plus the length of the style suffix (124) exceeds 1000, fails:
    the enhanced prompt is rejected by the validation in [generate_image],
    which returns the failure dictionary of [ValueError("Invalid prompt
    provided")] without running the pipeline, and the endpoint answers with
    status 500 and [success] false; when the remote call itself goes
    through, the error is that of the [ValueError]. *)
Theorem long_prompt_rejected_after_enhancement
  (w : World) (prompt : pystr) (steps seed : Z) :
  validate_prompt prompt = true ->
  (1000 < length (strip prompt) + length Config.ANIME_STYLE_SUFFIX)%nat ->
  let enhanced_prompt := enhance_prompt prompt Config.ANIME_STYLE_SUFFIX in
  validate_prompt enhanced_prompt = false
  /\ run (generate_image w enhanced_prompt seed (clamped steps))
     = (inr (generate_image_failure
               (ValueError (lit "Invalid prompt provided")) seed
               (clamped steps)), [])
  /\ exists resp tr,
       run (generate_endpoint w prompt steps seed) = (inr resp, tr)
       /\ status_code resp = 500
       /\ lookup "success" (content resp) = Some (JBool false)
       /\ pipe_calls tr = []
       /\ remote_calls tr = [(enhanced_prompt, seed, clamped steps)]
       /\ (remote_transport w enhanced_prompt seed (clamped steps) = None ->
           content resp = [("success", JBool false);
                           ("error", JStr (lit "Invalid prompt provided"))]).
Proof.
  intros V L enhanced_prompt.
  assert (V' : validate_prompt enhanced_prompt = false).
  { apply validate_prompt_too_long. unfold enhanced_prompt.
    now rewrite enhance_prompt_length. }
  split; [exact V'|]. split.
  - unfold run. rewrite generate_image_run, V'. reflexivity.
  - rewrite generate_endpoint_run, V. fold enhanced_prompt. rewrite V'.
    destruct (remote_transport w enhanced_prompt seed (clamped steps));
      do 2 eexists; (split; [reflexivity|]); repeat split; discriminate.
Qed.

(** 900 letters pass the endpoint's validation; with the suffix they make
    1024 characters, and the request ends in a 500. *)
Lemma long_prompt_rejected_after_enhancement_witness :
  let prompt := repeat 97%N 900 in
  validate_prompt prompt = true
  /\ (1000 < length (strip prompt) + length Config.ANIME_STYLE_SUFFIX)%nat
  /\ exists resp tr,
       run (generate_endpoint world_ok prompt 4 7) = (inr resp, tr)
       /\ status_code resp = 500
       /\ content resp = [("success", JBool false);
                          ("error", JStr (lit "Invalid prompt provided"))].
Proof.
  intros prompt.
  assert (V : validate_prompt prompt = true) by (vm_compute; reflexivity).
  assert (L : (1000 < length (strip prompt)
                      + length Config.ANIME_STYLE_SUFFIX)%nat)
    by (vm_compute; repeat constructor).
  split; [exact V|]. split; [exact L|].
  destruct (long_prompt_rejected_after_enhancement world_ok prompt 4 7 V L)
    as (_ & _ & resp & tr & E & S & _ & _ & _ & C).
  exists resp, tr. split; [exact E|]. split; [exact S|exact (C eq_refl)].
Defined.

(** ** C10: the default preview without its image *)

Lemma load_default_image_run (w : World) (filename : pystr) :
  run (load_default_image w filename) =
  if path_exists w filename then
    match read_file w filename with
    | inl e => (inr None, [EvExists filename; EvRead filename])
    | inr img_data =>
        (inr (Some (b64encode img_data)),
         [EvExists filename; EvRead filename])
    end
  else (inr None, [EvExists filename]).
Proof.
  unfold run, load_default_image, try_except, bind, emit, of_sum. simpl.
  destruct (path_exists w filename); [|reflexivity]. simpl.
  destruct (read_file w filename); reflexivity.
Qed.

(** C10: when the image file is missing ([os.path.exists] is false) or
    cannot be read (opening or reading it raises), [load_default_image]
    returns [None] and raises nothing, and [GET /default-preview] answers
    with status 200 and the body [{prompt: DEFAULT_PROMPT, image: null}]. *)
Theorem default_preview_without_image (w : World) (filename : pystr) :
  path_exists w filename = false
  \/ (exists e, read_file w filename = inl e) ->
  (exists tr, run (load_default_image w filename) = (inr None, tr))
  /\ (filename = Config.DEFAULT_IMAGE_FILE ->
      exists resp tr,
        run (get_default_preview w) = (inr resp, tr)
        /\ status_code resp = 200
        /\ content resp = [("prompt", JStr Config.DEFAULT_PROMPT);
                           ("image", JNull)]).
Proof.
  intros H.
  assert (L : exists tr, run (load_default_image w filename) = (inr None, tr)).
  { rewrite load_default_image_run.
    destruct (path_exists w filename); [|eauto].
    destruct H as [H | [e H]]; [discriminate|]. rewrite H. eauto. }
  split; [exact L|].
  intros ->. destruct L as [tr L].
  unfold run, get_default_preview, bind. unfold run in L. rewrite L.
  do 2 eexists. split; [reflexivity|]. split; reflexivity.
Qed.

(** The file is missing in one world and unreadable in the other: the
    preview is served without an image in both. *)
Lemma default_preview_without_image_witness :
  path_exists world_ok Config.DEFAULT_IMAGE_FILE = false
  /\ path_exists world_failing Config.DEFAULT_IMAGE_FILE = true
  /\ read_file world_failing Config.DEFAULT_IMAGE_FILE
     = inl (ExternalError (lit "Permission denied"))
  /\ (exists resp tr,
        run (get_default_preview world_ok) = (inr resp, tr)
        /\ lookup "image" (content resp) = Some JNull)
  /\ (exists resp tr,
        run (get_default_preview world_failing) = (inr resp, tr)
        /\ lookup "image" (content resp) = Some JNull).
Proof.
  split; [reflexivity|]. split; [reflexivity|]. split; [reflexivity|].
  split.
  - destruct (default_preview_without_image world_ok
                Config.DEFAULT_IMAGE_FILE (or_introl eq_refl)) as [_ H].
    destruct (H eq_refl) as (resp & tr & E & _ & C).
    exists resp, tr. split; [exact E|]. rewrite C. reflexivity.
  - destruct (default_preview_without_image world_failing
                Config.DEFAULT_IMAGE_FILE
                (or_intror (ex_intro _ _ eq_refl))) as [_ H].
    destruct (H eq_refl) as (resp & tr & E & _ & C).
    exists resp, tr. split; [exact E|]. rewrite C. reflexivity.
Defined.

(** * Further properties of the code *)

(** ** Stripping and enhancing *)

Lemma lstrip_prefix (s : pystr) :
  exists pre, s = pre ++ lstrip s /\ forallb isspace pre = true.
Proof.
  induction s as [|c s [pre [E Hpre]]]; simpl.
  - exists []; auto.
  - destruct (isspace c) eqn:Hc.
    + exists (c :: pre); simpl; rewrite Hc, <- E; auto.
    + exists []; auto.
Qed.

(** [strip] takes whitespace off the two ends and nothing else. *)
Lemma strip_decompose (s : pystr) :
  exists pre post,
    s = pre ++ strip s ++ post
    /\ forallb isspace pre = true /\ forallb isspace post = true.
Proof.
  destruct (lstrip_prefix s) as (pre & E & Hpre).
  destruct (lstrip_prefix (rev (lstrip s))) as (post & E' & Hpost).
  exists pre, (rev post). unfold strip, rstrip.
  rewrite forallb_rev. repeat split; auto.
  rewrite <- rev_app_distr, <- E', rev_involutive. exact E.
Qed.

Lemma lstrip_app_space (a s : pystr) :
  forallb isspace a = true -> lstrip (a ++ s) = lstrip s.
Proof.
  induction a as [|c a IH]; simpl; [reflexivity|].
  intros H; apply andb_true_iff in H as [-> H]. auto.
Qed.

Lemma lstrip_app_nonblank (s b : pystr) :
  lstrip s <> [] -> lstrip (s ++ b) = lstrip s ++ b.
Proof.
  induction s as [|c s IH]; simpl; [congruence|].
  destruct (isspace c); auto.
Qed.

Lemma rstrip_app_space (s b : pystr) :
  forallb isspace b = true -> rstrip (s ++ b) = rstrip s.
Proof.
  intros H. unfold rstrip. rewrite rev_app_distr, lstrip_app_space; auto.
  now rewrite forallb_rev.
Qed.

Lemma strip_padding (a s b : pystr) :
  forallb isspace a = true -> forallb isspace b = true ->
  strip (a ++ s ++ b) = strip s.
Proof.
  intros Ha Hb. unfold strip. rewrite lstrip_app_space by exact Ha.
  destruct (lstrip s) as [|c t] eqn:E.
  - rewrite lstrip_app_space, lstrip_all_space; auto.
    now apply lstrip_nil_all_space.
  - rewrite lstrip_app_nonblank by congruence. rewrite E.
    now apply rstrip_app_space.
Qed.

Lemma strip_idempotent (s : pystr) : strip (strip s) = strip s.
Proof.
  destruct (strip_decompose s) as (pre & post & E & Hpre & Hpost).
  rewrite E at 2. symmetry. now apply strip_padding.
Qed.

(** X1: whitespace around the user's prompt does not reach the model.  Two
    prompts that differ only by whitespace at their ends are enhanced to the
    same text, whatever the suffix; in particular enhancing the stripped
    prompt gives what enhancing the prompt gives. *)
Theorem enhance_prompt_ignores_surrounding_whitespace
  (before user_prompt after style_suffix : pystr) :
  forallb isspace before = true ->
  forallb isspace after = true ->
  enhance_prompt (before ++ user_prompt ++ after) style_suffix
  = enhance_prompt user_prompt style_suffix
  /\ enhance_prompt (strip user_prompt) style_suffix
     = enhance_prompt user_prompt style_suffix.
Proof.
  intros Hb Ha. unfold enhance_prompt.
  now rewrite strip_padding, strip_idempotent.
Qed.

Lemma enhance_prompt_ignores_surrounding_whitespace_witness :
  forallb isspace [32; 9]%N = true
  /\ forallb isspace [10]%N = true
  /\ enhance_prompt ([32; 9]%N ++ lit "a cat" ++ [10]%N)
       Config.ANIME_STYLE_SUFFIX
     = enhance_prompt (lit "a cat") Config.ANIME_STYLE_SUFFIX.
Proof.
  split; [reflexivity|]. split; [reflexivity|].
  exact (proj1 (enhance_prompt_ignores_surrounding_whitespace
                  [32; 9]%N (lit "a cat") [10]%N Config.ANIME_STYLE_SUFFIX
                  eq_refl eq_refl)).
Defined.

Lemma validate_enhanced_prompt_iff (user_prompt : pystr) :
  validate_prompt (enhance_prompt user_prompt Config.ANIME_STYLE_SUFFIX)
  = true
  <-> (length (strip user_prompt) <= 876)%nat.
Proof.
  pose proof (validate_prompt_false_iff
                (enhance_prompt user_prompt Config.ANIME_STYLE_SUFFIX)) as F.
  rewrite enhance_prompt_length in F. unfold enhance_prompt in F at 2.
  rewrite forallb_app in F.
  replace (forallb isspace Config.ANIME_STYLE_SUFFIX) with false in F
    by reflexivity.
  rewrite andb_false_r in F.
  replace (length Config.ANIME_STYLE_SUFFIX) with 124%nat in F
    by reflexivity.
  destruct (validate_prompt (enhance_prompt user_prompt _)).
  - split; [intros _|reflexivity].
    destruct (Nat.le_gt_cases (length (strip user_prompt)) 876) as [L | L];
      [exact L|].
    assert (true = false) by (apply F; right; lia). discriminate.
  - split; [discriminate|]. intros L.
    destruct (proj1 F eq_refl) as [H | H]; [discriminate|lia].
Qed.

(** X2: the style suffix eats into the length limit.  The enhanced prompt
    is never blank and has at least the 124 characters of the suffix, so the
    validation inside [generate_image] accepts it exactly when the stripped
    user prompt has at most 876 characters (1000 less 124); a user prompt of
    at most 876 characters, blank or not, always gives a valid enhanced
    prompt. *)
Theorem enhanced_prompt_valid_iff_short (user_prompt : pystr) :
  let enhanced_prompt :=
    enhance_prompt user_prompt Config.ANIME_STYLE_SUFFIX in
  forallb isspace enhanced_prompt = false
  /\ (124 <= length enhanced_prompt)%nat
  /\ (validate_prompt enhanced_prompt = true
      <-> (length (strip user_prompt) <= 876)%nat)
  /\ ((length user_prompt <= 876)%nat ->
      validate_prompt enhanced_prompt = true).
Proof.
  intros enhanced_prompt. split; [|split; [|split]].
  - unfold enhanced_prompt, enhance_prompt. rewrite forallb_app.
    replace (forallb isspace Config.ANIME_STYLE_SUFFIX) with false
      by reflexivity.
    apply andb_false_r.
  - unfold enhanced_prompt. rewrite enhance_prompt_length.
    replace (length Config.ANIME_STYLE_SUFFIX) with 124%nat by reflexivity.
    lia.
  - apply validate_enhanced_prompt_iff.
  - intros L. apply validate_enhanced_prompt_iff.
    pose proof (strip_length user_prompt). lia.
Qed.

(** ** The endpoint as a whole *)

Lemma validate_prompt_true_nonempty (prompt : pystr) :
  validate_prompt prompt = true -> (1 <= length prompt)%nat.
Proof.
  intros V. destruct prompt as [|c s]; [discriminate|simpl; lia].
Qed.

Ltac outcome_cases O :=
  inversion O; subst; clear O;
  repeat match goal with x := _ |- _ => subst x end.

(** X3: when a request succeeds.  Every request gets a response, and the
    response has status 200 exactly when the prompt passes validation, its
    stripped length is at most 876, the remote call goes through, the model
    loads and the pipeline returns an image. *)
Theorem generate_endpoint_succeeds_iff
  (w : World) (prompt : pystr) (steps seed : Z) :
  let enhanced_prompt := enhance_prompt prompt Config.ANIME_STYLE_SUFFIX in
  exists resp tr,
    run (generate_endpoint w prompt steps seed) = (inr resp, tr)
    /\ (status_code resp = 200
        <-> validate_prompt prompt = true
            /\ (length (strip prompt) <= 876)%nat
            /\ remote_transport w enhanced_prompt seed (clamped steps) = None
            /\ load_model w = None
            /\ exists png,
                 run_pipe w enhanced_prompt (resolved w seed) (clamped steps)
                 = inr png).
Proof.
  intros enhanced_prompt; subst enhanced_prompt.
  destruct (generate_endpoint_outcome w prompt steps seed)
    as (resp & tr & E & O).
  exists resp, tr. split; [exact E|].
  rewrite <- validate_enhanced_prompt_iff.
  outcome_cases O; simpl;
    (split;
     [ try discriminate; intros _; repeat split; eauto
     | intros (V & V' & T & L & png' & P); congruence ]).
Qed.

(** X4: a prompt that fails validation costs nothing.  The endpoint answers
    at once, with no remote call, no model load, no draw and no pipeline
    run: its trace of external calls is empty. *)
Theorem rejected_prompt_makes_no_call
  (w : World) (prompt : pystr) (steps seed : Z) :
  validate_prompt prompt = false ->
  exists resp,
    run (generate_endpoint w prompt steps seed) = (inr resp, [])
    /\ lookup "success" (content resp) = Some (JBool false)
    /\ status_code resp = 500.
Proof.
  intros V. rewrite generate_endpoint_run, V.
  eexists. split; [reflexivity|]. split; reflexivity.
Qed.

Lemma rejected_prompt_makes_no_call_witness :
  validate_prompt (lit "   ") = false
  /\ snd (run (generate_endpoint world_ok (lit "   ") 4 7)) = [].
Proof.
  assert (V : validate_prompt (lit "   ") = false) by reflexivity.
  split; [exact V|].
  destruct (rejected_prompt_makes_no_call world_ok (lit "   ") 4 7 V)
    as (resp & E & _).
  rewrite E. reflexivity.
Defined.

(** X5: status and body agree.  The status of a response is 200 or 500,
    never a 4xx; it is 200 exactly when the body says [success: true] and
    500 exactly when it says [success: false]. *)
Theorem generate_endpoint_status_matches_success
  (w : World) (prompt : pystr) (steps seed : Z) :
  exists resp tr,
    run (generate_endpoint w prompt steps seed) = (inr resp, tr)
    /\ (status_code resp = 200 \/ status_code resp = 500)
    /\ ~ (400 <= status_code resp < 500)
    /\ (status_code resp = 200
        <-> lookup "success" (content resp) = Some (JBool true))
    /\ (status_code resp = 500
        <-> lookup "success" (content resp) = Some (JBool false)).
Proof.
  destruct (generate_endpoint_outcome w prompt steps seed)
    as (resp & tr & E & O).
  exists resp, tr. split; [exact E|].
  outcome_cases O; simpl;
    (split; [auto|]); (split; [lia|]);
    split; split; first [reflexivity | discriminate].
Qed.


(** ** What [generate_image] hands back *)

(** X7: the endpoint never misses a key.  Whatever [generate_image]
    returns, the reads the endpoint makes on it succeed: [result["success"]]
    is there and is a boolean; when it is true, [image] (a base64 string),
    [seed] and [steps] (integers) are there; when it is false, [error] (a
    string) is there and [image] is not. *)
Theorem generate_image_result_has_the_keys_read
  (w : World) (prompt : pystr) (seed steps : Z) :
  exists result tr success,
    run (generate_image w prompt seed steps) = (inr result, tr)
    /\ run (getitem result "success") = (inr (JBool success), [])
    /\ if truthy (JBool success)
       then exists image used_seed used_steps,
              run (getitem result "image") = (inr (JStr image), [])
              /\ run (getitem result "seed") = (inr (JInt used_seed), [])
              /\ run (getitem result "steps") = (inr (JInt used_steps), [])
              /\ is_base64 image = true
       else (exists error,
               run (getitem result "error") = (inr (JStr error), []))
            /\ run (getitem result "image") = (inl (KeyError "image"), []).
Proof.
  destruct (generate_image_outcome w prompt seed steps)
    as (result & tr & E & O).
  exists result, tr.
  inversion O; subst; clear O;
    [exists false | exists false | exists false | exists true];
    (split; [exact E|]); (split; [reflexivity|]); simpl.
  1-3: split; [eexists|]; reflexivity.
  do 3 eexists. repeat split. apply b64encode_is_base64.
Qed.

(** X8: a failed generation echoes its arguments.  When the result says
    [success: false] it has exactly the keys [success], [error], [seed] and
    [steps], and its [seed] is the argument [generate_image] was called
    with, the sentinel -1 included: a seed drawn before the pipeline failed
    is not reported.  Its [steps] is the clamped count when the prompt was
    valid; when the prompt was rejected, nothing has been called, the error
    is that of the [ValueError], and [steps] is the argument as passed,
    not clamped. *)
Theorem generate_image_failure_echoes_arguments
  (w : World) (prompt : pystr) (seed steps : Z) :
  exists result tr,
    run (generate_image w prompt seed steps) = (inr result, tr)
    /\ (validate_prompt prompt = false ->
        lookup "success" result = Some (JBool false))
    /\ (lookup "success" result = Some (JBool false) ->
        keys result = ["success"; "error"; "seed"; "steps"]
        /\ lookup "seed" result = Some (JInt seed)
        /\ (validate_prompt prompt = true ->
            lookup "steps" result = Some (JInt (clamped steps)))
        /\ (validate_prompt prompt = false ->
            lookup "steps" result = Some (JInt steps)
            /\ lookup "error" result
               = Some (JStr (lit "Invalid prompt provided"))
            /\ tr = [])).
Proof.
  destruct (generate_image_outcome w prompt seed steps)
    as (result & tr & E & O).
  exists result, tr. split; [exact E|].
  inversion O; subst; clear O; simpl;
    (split; [intros V; first [reflexivity | congruence]|]);
    intros S; try discriminate S;
    (split; [reflexivity|]); (split; [reflexivity|]);
    split; intros V; first [congruence | reflexivity | auto].
Qed.

(** With the sentinel seed and a pipeline that fails, a draw is made, the
    pipeline runs with the drawn seed 0, and the result reports -1; with a
    blank prompt and 100 steps, the result reports 100 steps. *)
Lemma generate_image_failure_echoes_arguments_witness :
  (exists result tr,
     run (generate_image world_failing (lit "a cat") (-1) 4) = (inr result, tr)
     /\ lookup "success" result = Some (JBool false)
     /\ randint_calls tr = [(0, 2 ^ 32 - 1)]
     /\ pipe_calls tr = [(lit "a cat", 0, 4)]
     /\ lookup "seed" result = Some (JInt (-1)))
  /\ (exists result tr,
        run (generate_image world_ok (lit " ") 7 100) = (inr result, tr)
        /\ validate_prompt (lit " ") = false
        /\ lookup "steps" result = Some (JInt 100)).
Proof.
  split.
  - destruct (generate_image_failure_echoes_arguments
                world_failing (lit "a cat") (-1) 4)
      as (result & tr & E & _ & H).
    exists result, tr. split; [exact E|].
    vm_compute in E. injection E as <- <-.
    split; [reflexivity|]. split; [reflexivity|]. split; [reflexivity|].
    exact (proj1 (proj2 (H eq_refl))).
  - destruct (generate_image_failure_echoes_arguments
                world_ok (lit " ") 7 100)
      as (result & tr & E & F & H).
    exists result, tr. split; [exact E|]. split; [reflexivity|].
    exact (proj1 (proj2 (proj2 (proj2 (H (F eq_refl)))) eq_refl)).
Defined.

(** ** What reaches the pipeline *)

(** X9: the pipeline is only ever run on checked input.  In any run of
    [generate_image], a pipeline run gets the prompt passed in, which has
    passed validation (between 1 and 1000 characters, not blank), and a step
    count between 1 and 8.  Through the endpoint the prompt is moreover the
    enhanced one: it ends with the style suffix and has more than 124
    characters. *)
Theorem pipeline_runs_on_checked_input
  (w : World) (prompt : pystr) (steps seed : Z) :
  (forall p s st,
     In (p, s, st) (pipe_calls (snd (run (generate_image w prompt seed steps))))
     -> p = prompt
        /\ validate_prompt p = true
        /\ (1 <= length p <= 1000)%nat
        /\ 1 <= st <= 8)
  /\ (forall p s st,
        In (p, s, st)
           (pipe_calls (snd (run (generate_endpoint w prompt steps seed))))
        -> p = strip prompt ++ Config.ANIME_STYLE_SUFFIX
           /\ validate_prompt prompt = true
           /\ validate_prompt p = true
           /\ (124 < length p <= 1000)%nat
           /\ 1 <= st <= 8).
Proof.
  split; intros p s st I.
  - destruct (generate_image_outcome w prompt seed steps)
      as (result & tr & E & O).
    rewrite E in I. cbn [snd] in I.
    inversion O; subst; clear O; revert I; calls; intros I; in_calls.
    all: split; [reflexivity|]; split; [assumption|].
    all: split; [|apply clamped_in_range].
    all: split; [now apply validate_prompt_true_nonempty
                |now apply validate_prompt_true_length].
  - destruct (generate_endpoint_outcome w prompt steps seed)
      as (resp & tr & E & O).
    rewrite E in I. cbn [snd] in I.
    outcome_cases O; revert I; calls; intros I; in_calls.
    all: split; [reflexivity|]; split; [assumption|]; split; [assumption|].
    all: split; [|apply clamped_in_range].
    all: split; [|now apply validate_prompt_true_length].
    all: rewrite enhance_prompt_length;
      replace (length Config.ANIME_STYLE_SUFFIX) with 124%nat by reflexivity.
    all: assert (strip prompt <> [])
      by (intros N; apply strip_nil_iff in N;
          assert (validate_prompt prompt = false)
            by (apply validate_prompt_false_iff; now left);
          congruence).
    all: destruct (strip prompt); [congruence|simpl; lia].
Qed.

Lemma pipeline_runs_on_checked_input_witness :
  In (enhance_prompt (lit "a cat") Config.ANIME_STYLE_SUFFIX, 7, 4)
     (pipe_calls (snd (run (generate_endpoint world_ok (lit "a cat") 9 7))))
  /\ 1 <= 4 <= 8.
Proof.
  assert (I : In (enhance_prompt (lit "a cat") Config.ANIME_STYLE_SUFFIX, 7, 4)
                (pipe_calls
                   (snd (run (generate_endpoint world_ok (lit "a cat") 9 7)))))
    by (left; reflexivity).
  split; [exact I|].
  exact (proj2 (proj2 (proj2 (proj2
           (proj2 (pipeline_runs_on_checked_input world_ok (lit "a cat") 9 7)
              _ _ _ I))))).
Defined.

(** X10: the sentinel never reaches the generator.  With [random.randint]
    keeping its contract, no pipeline run of a request is seeded with -1:
    the seed is the one submitted when that is not -1, and a draw from
    [0, 2^32 - 1] otherwise. *)
Theorem pipeline_never_seeded_with_sentinel
  (w : World) (prompt : pystr) (steps seed : Z) (p : pystr) (s st : Z) :
  (forall lo hi, lo <= hi -> lo <= randint w lo hi <= hi) ->
  In (p, s, st)
     (pipe_calls (snd (run (generate_endpoint w prompt steps seed)))) ->
  s <> Config.DEFAULT_SEED
  /\ (seed <> Config.DEFAULT_SEED -> s = seed)
  /\ (seed = Config.DEFAULT_SEED -> 0 <= s <= 2 ^ 32 - 1).
Proof.
  intros contract I.
  destruct (generate_endpoint_outcome w prompt steps seed)
    as (resp & tr & E & O).
  rewrite E in I. cbn [snd] in I.
  assert (S : s = resolved w seed).
  { destruct (endpoint_outcome_calls _ _ _ _ _ _ O) as (_ & [P | P] & _);
      rewrite P in I; in_calls; reflexivity. }
  subst s. unfold resolved, Config.DEFAULT_SEED.
  pose proof (contract 0 (2 ^ 32 - 1) ltac:(lia)) as R.
  destruct (seed =? -1) eqn:Q.
  - apply Z.eqb_eq in Q. repeat split; lia.
  - apply Z.eqb_neq in Q. repeat split; lia.
Qed.

Lemma pipeline_never_seeded_with_sentinel_witness :
  (forall lo hi, lo <= hi -> lo <= randint world_ok lo hi <= hi)
  /\ In (enhance_prompt (lit "a cat") Config.ANIME_STYLE_SUFFIX,
         2 ^ 32 - 1, 4)
        (pipe_calls
           (snd (run (generate_endpoint world_ok (lit "a cat") 4 (-1)))))
  /\ 2 ^ 32 - 1 <> Config.DEFAULT_SEED.
Proof.
  assert (contract : forall lo hi,
             lo <= hi -> lo <= randint world_ok lo hi <= hi)
    by (simpl; lia).
  assert (I : In (enhance_prompt (lit "a cat") Config.ANIME_STYLE_SUFFIX,
                  2 ^ 32 - 1, 4)
                (pipe_calls
                   (snd (run (generate_endpoint world_ok (lit "a cat") 4
                                (-1))))))
    by (left; reflexivity).
  split; [exact contract|]. split; [exact I|].
  exact (proj1 (pipeline_never_seeded_with_sentinel
                  world_ok (lit "a cat") 4 (-1) _ _ _ contract I)).
Defined.

(** ** Steps and the text shown *)

(** X11: a step count out of range is the same request as 4 steps.  For
    steps outside [1,8] (zero and negative values included) the endpoint
    makes the same calls and sends the same response as for 4 steps; so does
    [generate_image] when its prompt is valid. *)
Theorem out_of_range_steps_same_as_default
  (w : World) (prompt : pystr) (steps seed : Z) :
  ~ 1 <= steps <= 8 ->
  run (generate_endpoint w prompt steps seed)
  = run (generate_endpoint w prompt Config.DEFAULT_STEPS seed)
  /\ (validate_prompt prompt = true ->
      run (generate_image w prompt seed steps)
      = run (generate_image w prompt seed Config.DEFAULT_STEPS)).
Proof.
  intros N.
  assert (C : clamped steps = clamped Config.DEFAULT_STEPS)
    by (rewrite (proj2 (clamped_spec steps) N); reflexivity).
  split.
  - rewrite !generate_endpoint_run. cbv zeta. rewrite C. reflexivity.
  - intros V. unfold run. rewrite !generate_image_run, V, C. reflexivity.
Qed.

Lemma out_of_range_steps_same_as_default_witness :
  ~ 1 <= 0 <= 8
  /\ run (generate_endpoint world_ok (lit "a cat") 0 7)
     = run (generate_endpoint world_ok (lit "a cat") 4 7).
Proof.
  assert (N : ~ 1 <= 0 <= 8) by lia.
  split; [exact N|].
  exact (proj1 (out_of_range_steps_same_as_default
                  world_ok (lit "a cat") 0 7 N)).
Defined.

Lemma truncated_length (s : pystr) :
  (100 < length s)%nat -> length (truncated s) = 103%nat.
Proof.
  intros L. rewrite (proj1 (truncated_spec s) L), length_app, length_firstn.
  replace (length (lit "...")) with 3%nat by reflexivity. lia.
Qed.

(** X12: the enhanced prompt is always shown cut.  The suffix alone has 124
    characters, so the [enhanced_prompt] of a successful response is always
    the first 100 characters of the enhanced prompt followed by [...]: 103
    characters, whatever the user wrote. *)
Theorem shown_enhanced_prompt_is_always_cut
  (w : World) (prompt : pystr) (steps seed : Z) :
  let enhanced_prompt := enhance_prompt prompt Config.ANIME_STYLE_SUFFIX in
  truncated enhanced_prompt = firstn 100 enhanced_prompt ++ lit "..."
  /\ length (truncated enhanced_prompt) = 103%nat
  /\ exists resp tr,
       run (generate_endpoint w prompt steps seed) = (inr resp, tr)
       /\ (status_code resp = 200 ->
           lookup "enhanced_prompt" (content resp)
           = Some (JStr (firstn 100 enhanced_prompt ++ lit "..."))).
Proof.
  intros enhanced_prompt.
  assert (L : (100 < length enhanced_prompt)%nat).
  { unfold enhanced_prompt. rewrite enhance_prompt_length.
    replace (length Config.ANIME_STYLE_SUFFIX) with 124%nat by reflexivity.
    lia. }
  split; [now apply truncated_spec|]. split; [now apply truncated_length|].
  destruct (generate_endpoint_outcome w prompt steps seed)
    as (resp & tr & E & O).
  exists resp, tr. split; [exact E|].
  rewrite <- (proj1 (truncated_spec enhanced_prompt) L).
  subst enhanced_prompt.
  outcome_cases O; simpl; intros S; first [discriminate S | reflexivity].
Qed.

(** ** The default preview, in full *)

(** X13: loading the preview image never raises, whatever the file system
    does.  It asks whether the file exists first and opens it only if it
    does; it returns the base64 text of the file's bytes when the file
    exists and can be read, and [None] in every other case.
    [GET /default-preview] therefore always answers 200, with exactly the
    fields [prompt] (the default prompt) and [image] (null or a base64
    string). *)
Theorem default_preview_always_served (w : World) (filename : pystr) :
  (exists default_image tr,
     run (load_default_image w filename) = (inr default_image, tr)
     /\ (tr = [EvExists filename]
         \/ tr = [EvExists filename; EvRead filename]
            /\ path_exists w filename = true)
     /\ (default_image = None
         <-> path_exists w filename = false
             \/ exists e, read_file w filename = inl e)
     /\ (forall image,
           default_image = Some image ->
           is_base64 image = true
           /\ exists img_data,
                read_file w filename = inr img_data
                /\ image = b64encode img_data))
  /\ exists resp tr,
       run (get_default_preview w) = (inr resp, tr)
       /\ status_code resp = 200
       /\ keys (content resp) = ["prompt"; "image"]
       /\ lookup "prompt" (content resp) = Some (JStr Config.DEFAULT_PROMPT)
       /\ (lookup "image" (content resp) = Some JNull
           \/ exists image,
                lookup "image" (content resp) = Some (JStr image)
                /\ is_base64 image = true).
Proof.
  split.
  - rewrite load_default_image_run.
    destruct (path_exists w filename) eqn:X.
    + destruct (read_file w filename) as [e | img_data] eqn:R;
        do 2 eexists; (split; [reflexivity|]); (split; [auto|]); split.
      * split; eauto.
      * discriminate.
      * split; [discriminate|]. intros [H | [e H]]; discriminate.
      * intros image [= <-]. split; [apply b64encode_is_base64|eauto].
    + do 2 eexists. split; [reflexivity|]. split; [auto|]. split.
      * split; auto.
      * discriminate.
  - unfold run, get_default_preview, bind.
    pose proof (load_default_image_run w Config.DEFAULT_IMAGE_FILE) as L.
    unfold run in L. rewrite L.
    destruct (path_exists w Config.DEFAULT_IMAGE_FILE);
      [destruct (read_file w Config.DEFAULT_IMAGE_FILE)|];
      do 2 eexists; (split; [reflexivity|]); repeat split; simpl; auto.
    right. eexists. split; [reflexivity|apply b64encode_is_base64].
Qed.

(** ** The model handle *)

Lemma load_model_calls_loaded {Pipe : Type}
  (answers : list (exn + Pipe)) (p : Pipe) :
  load_model_calls answers {| pipe := Some p |}
  = ({| pipe := Some p |}, 0%nat).
Proof.
  induction answers as [|a rest IH]; simpl; [reflexivity|].
  now rewrite IH.
Qed.

(** X14: the model is loaded once.  A call of [load_model] that returns
    leaves a handle in [self.pipe]; a call that raises leaves [self.pipe] as
    it was.  Once a handle is there, no later call, however many requests
    follow, calls [from_pretrained] again or replaces the handle; and
    starting from a fresh generator, [from_pretrained] is called at most
    once more than it has failed. *)
Theorem model_loaded_at_most_once {Pipe : Type}
  (answers : list (exn + Pipe)) (self : ImageGenerator Pipe) :
  (forall a,
     match ImageGenerator_load_model a self with
     | (inr _, self', _) => pipe self' <> None
     | (inl _, self', _) => self' = self
     end)
  /\ (forall p,
        pipe self = Some p ->
        load_model_calls answers self = (self, 0%nat))
  /\ (let '(final, n) := load_model_calls answers ImageGenerator_init in
      (n <= 1 + length (filter (fun a => match a with
                                         | inl _ => true
                                         | inr _ => false
                                         end) answers))%nat
      /\ (pipe final = None <-> (n = length answers
                                 /\ forall a, In a answers ->
                                              exists e, a = inl e))).
Proof.
  split; [|split].
  - intros a. unfold ImageGenerator_load_model.
    destruct self as [[p|]]; simpl; [discriminate|].
    destruct a; simpl; [reflexivity|discriminate].
  - intros p E. destruct self as [q]; simpl in E; subst q.
    apply load_model_calls_loaded.
  - unfold ImageGenerator_init.
    induction answers as [|a rest IH].
    + simpl. split; [lia|]. split; [intros _; split; [reflexivity|]|auto].
      intros a [].
    + cbn [load_model_calls ImageGenerator_load_model pipe].
      destruct a as [e | p].
      * destruct (load_model_calls rest {| pipe := None |}) as [final n].
        destruct IH as [B I]. cbn [filter length]. split; [lia|].
        rewrite I. split.
        -- intros [-> A]. split; [reflexivity|].
           intros a [<- | H]; eauto.
        -- intros [N A]. split; [simpl in N; lia|].
           intros a H. apply A. now right.
      * rewrite load_model_calls_loaded. cbn [filter length pipe].
        split; [lia|]. split; [discriminate|].
        intros [_ A]. destruct (A (inr p) (or_introl eq_refl)) as [e H].
        discriminate.
Qed.

(** ** The draw *)

(** X15: when a draw is made.  A run of [generate_image] calls
    [random.randint] at most once, always with the bounds 0 and 2^32 - 1,
    and exactly when the seed is -1, the prompt is valid and the model has
    loaded: a request that fails earlier draws nothing. *)
Theorem draw_made_only_when_needed
  (w : World) (prompt : pystr) (seed steps : Z) :
  exists result tr,
    run (generate_image w prompt seed steps) = (inr result, tr)
    /\ (randint_calls tr = [] \/ randint_calls tr = [(0, 2 ^ 32 - 1)])
    /\ (randint_calls tr = [(0, 2 ^ 32 - 1)]
        <-> seed = -1 /\ validate_prompt prompt = true
            /\ load_model w = None).
Proof.
  destruct (generate_image_outcome w prompt seed steps)
    as (result & tr & E & O).
  exists result, tr. split; [exact E|].
  inversion O; subst; clear O; calls;
    try (split; [now left|];
         split; [discriminate|intros (_ & V & L); congruence]).
  all: rewrite app_nil_r; unfold Config.DEFAULT_SEED;
    destruct (seed =? -1) eqn:Q;
    [apply Z.eqb_eq in Q|apply Z.eqb_neq in Q];
    (split; [auto|]); split; auto; try discriminate.
  all: intros (S & _); contradiction.
Qed.

(** ** The size of the image text *)

(** X16: base64 text is four characters for every three bytes, rounded up:
    the [image] field of a response and the preview have
    [4 * ceil(n / 3)] characters for [n] bytes of PNG, and are empty only
    for an empty file. *)
Theorem b64encode_length_formula (data : list Byte.byte) :
  length (b64encode data) = (4 * ((length data + 2) / 3))%nat
  /\ (b64encode data = [] <-> data = []).
Proof.
  split.
  - induction data as [|a|a b|a b c rest IH] using triples_ind;
      try reflexivity.
    change (b64encode (a :: b :: c :: rest))
      with (b64_char (sextet (N.lor (N.lor (N.shiftl (Byte.to_N a) 16)
                                       (N.shiftl (Byte.to_N b) 8))
                                (Byte.to_N c)) 18)
            :: b64_char (sextet (N.lor (N.lor (N.shiftl (Byte.to_N a) 16)
                                          (N.shiftl (Byte.to_N b) 8))
                                   (Byte.to_N c)) 12)
            :: b64_char (sextet (N.lor (N.lor (N.shiftl (Byte.to_N a) 16)
                                          (N.shiftl (Byte.to_N b) 8))
                                   (Byte.to_N c)) 6)
            :: b64_char (sextet (N.lor (N.lor (N.shiftl (Byte.to_N a) 16)
                                          (N.shiftl (Byte.to_N b) 8))
                                   (Byte.to_N c)) 0)
            :: b64encode rest).
    cbn [length]. rewrite IH.
    replace (S (S (S (length rest))) + 2)%nat
      with (1 * 3 + (length rest + 2))%nat by lia.
    rewrite Nat.div_add_l by lia. lia.
  - destruct data as [|a [|b [|c rest]]]; split; intros H;
      first [reflexivity | discriminate H].
Qed.
